(** * VulnSight orchestration core (backend/server.py): a shallow embedding

    The development follows [src/Vulnsight101/backend/server.py]:
    the probe invoker [_call_tool_callable], the blocked-response classifier
    [classify_blocked_response], the dispatcher [run_tool_async] and
    [run_all_tools], the normalizer [normalize_results] and the risk
    computation at the end of [scan_url].

    Python values are embedded as a small JSON-like universe [pyval];
    Python [str] is embedded as [string] (one [ascii] per character, the
    case mappings acting on the ASCII letters), dictionaries as association
    lists in insertion order, exceptions as an explicit [outcome] type. *)

From Stdlib Require Import ZArith List Bool Ascii String Lia Permutation.
From Stdlib Require Import Numbers.DecimalString Numbers.DecimalPos.
Import ListNotations.
Open Scope string_scope.
Open Scope Z_scope.

Set Implicit Arguments.
Set Warnings "-register-all".

(* ================================================================== *)
(** * Python strings *)
(* ================================================================== *)

Module PyString.

Definition is_upper (c : ascii) : bool :=
  let n := nat_of_ascii c in (65 <=? n)%nat && (n <=? 90)%nat.

Definition is_lower (c : ascii) : bool :=
  let n := nat_of_ascii c in (97 <=? n)%nat && (n <=? 122)%nat.

Definition lower_char (c : ascii) : ascii :=
  if is_upper c then ascii_of_nat (nat_of_ascii c + 32) else c.

Definition upper_char (c : ascii) : ascii :=
  if is_lower c then ascii_of_nat (nat_of_ascii c - 32) else c.

Definition is_cased (c : ascii) : bool := is_upper c || is_lower c.

(** [s.lower()] *)
Fixpoint lower (s : string) : string :=
  match s with
  | EmptyString => EmptyString
  | String c s' => String (lower_char c) (lower s')
  end.

(** [needle in hay] on two strings *)
Fixpoint starts_with (needle hay : string) : bool :=
  match needle, hay with
  | EmptyString, _ => true
  | String a n', String b h' => Ascii.eqb a b && starts_with n' h'
  | String _ _, EmptyString => false
  end.

Fixpoint contains (needle hay : string) : bool :=
  starts_with needle hay ||
  match hay with
  | EmptyString => false
  | String _ h' => contains needle h'
  end.

(** [s.replace(old, new)] for one-character [old] and [new] *)
Fixpoint replace_char (old new : ascii) (s : string) : string :=
  match s with
  | EmptyString => EmptyString
  | String c s' =>
      String (if Ascii.eqb c old then new else c) (replace_char old new s')
  end.

(** [s.title()]: a cased character is upper-cased when the previous
    character is not cased and lower-cased otherwise. *)
Fixpoint title_from (previous_is_cased : bool) (s : string) : string :=
  match s with
  | EmptyString => EmptyString
  | String c s' =>
      String (if previous_is_cased then lower_char c else upper_char c)
             (title_from (is_cased c) s')
  end.

Definition title (s : string) : string := title_from false s.

(** [str(n)] for an integer *)
Definition of_int (z : Z) : string := NilZero.string_of_int (Z.to_int z).

Definition hex_digit (n : nat) : ascii :=
  if (n <? 10)%nat then ascii_of_nat (48 + n) else ascii_of_nat (87 + n).

(** One character of [repr(s)], for the quote character [q] chosen by
    [repr]. *)
Definition repr_char (q c : ascii) : string :=
  let n := nat_of_ascii c in
  if Ascii.eqb c q || Ascii.eqb c "\" then String "\" (String c EmptyString)
  else if (n =? 9)%nat then "\t"
  else if (n =? 10)%nat then "\n"
  else if (n =? 13)%nat then "\r"
  else if (n <? 32)%nat || (n =? 127)%nat then
    String "\" (String "x" (String (hex_digit (n / 16))
                              (String (hex_digit (n mod 16)) EmptyString)))
  else String c EmptyString.

Fixpoint repr_body (q : ascii) (s : string) : string :=
  match s with
  | EmptyString => EmptyString
  | String c s' => repr_char q c ++ repr_body q s'
  end.

Definition has_char (c : ascii) (s : string) : bool :=
  contains (String c EmptyString) s.

Definition double_quote : ascii := ascii_of_nat 34.

(** [repr(s)]: single quotes, unless the string holds a single quote and
    no double quote. *)
Definition repr (s : string) : string :=
  let q := if has_char "'" s && negb (has_char double_quote s) then double_quote
           else "'"%char in
  String q (repr_body q s ++ String q EmptyString).

End PyString.

(* ================================================================== *)
(** * Python values, dictionaries, exceptions *)
(* ================================================================== *)

(** The values a probe returns and the server builds: the JSON-like part
    of Python.  A dictionary keeps its items in insertion order. *)
Inductive pyval : Type :=
| PyNone
| PyBool (b : bool)
| PyInt (z : Z)
| PyStr (s : string)
| PyList (l : list pyval)
| PyDict (d : list (string * pyval)).

Definition pydict : Type := list (string * pyval).

(** Exception classes, as far as the server tells them apart:
    [except TypeError] against everything else. *)
Inductive exn_class : Type :=
| TypeError
| AttributeError
| OtherError (name : string).

Record pyexn : Type := PyExn { exn_cls : exn_class; exn_msg : string }.

(** [str(e)] *)
Definition str_of_exn (e : pyexn) : string := exn_msg e.

Definition is_type_error (e : pyexn) : bool :=
  match exn_cls e with TypeError => true | _ => false end.

(** A Python computation either returns or raises. *)
Inductive outcome (A : Type) : Type :=
| Returned (a : A)
| Raised (e : pyexn).
Arguments Returned {A} a.
Arguments Raised {A} e.

Definition bind {A B : Type} (m : outcome A) (k : A -> outcome B) : outcome B :=
  match m with
  | Returned a => k a
  | Raised e => Raised e
  end.

Notation "x <- m ;; k" := (bind m (fun x => k))
  (at level 61, m at next level, right associativity).

Module Py.

(** [bool(v)] *)
Definition truthy (v : pyval) : bool :=
  match v with
  | PyNone => false
  | PyBool b => b
  | PyInt z => negb (z =? 0)
  | PyStr s => negb (String.eqb s EmptyString)
  | PyList l => match l with [] => false | _ => true end
  | PyDict d => match d with [] => false | _ => true end
  end.

(** [a or b] *)
Definition or_ (a b : pyval) : pyval := if truthy a then a else b.

(** [v == n] for an integer literal [n] ([True == 1] and [False == 0]). *)
Definition eq_int (v : pyval) (n : Z) : bool :=
  match v with
  | PyInt z => z =? n
  | PyBool b => (if b then 1 else 0) =? n
  | _ => false
  end.

Definition type_name (v : pyval) : string :=
  match v with
  | PyNone => "NoneType"
  | PyBool _ => "bool"
  | PyInt _ => "int"
  | PyStr _ => "str"
  | PyList _ => "list"
  | PyDict _ => "dict"
  end.

(** [d.get(k)] as an option, [k in d], [d.get(k, default)] *)
Fixpoint lookup (d : pydict) (k : string) : option pyval :=
  match d with
  | [] => None
  | (k', v) :: d' => if String.eqb k' k then Some v else lookup d' k
  end.

Definition has_key (d : pydict) (k : string) : bool :=
  match lookup d k with Some _ => true | None => false end.

Definition get (d : pydict) (k : string) (default : pyval) : pyval :=
  match lookup d k with Some v => v | None => default end.

(** [d[k] = v]: an existing key keeps its position, a new key goes last. *)
Fixpoint set (d : pydict) (k : string) (v : pyval) : pydict :=
  match d with
  | [] => [(k, v)]
  | (k', v') :: d' =>
      if String.eqb k' k then (k', v) :: d' else (k', v') :: set d' k v
  end.

Definition add_pair (d : pydict) (kv : string * pyval) : pydict :=
  set d (fst kv) (snd kv).

(** [{k: v for k, v in pairs}] *)
Definition of_pairs (pairs : list (string * pyval)) : pydict :=
  fold_left add_pair pairs [].

Definition keys (d : pydict) : list string := map fst d.

(** [v.lower()]: only a [str] has the method. *)
Definition lower (v : pyval) : outcome string :=
  match v with
  | PyStr s => Returned (PyString.lower s)
  | _ => Raised (PyExn AttributeError
                   ("'" ++ type_name v ++ "' object has no attribute 'lower'"))
  end.

(** [repr(v)] *)
Fixpoint repr (v : pyval) : string :=
  match v with
  | PyNone => "None"
  | PyBool b => if b then "True" else "False"
  | PyInt z => PyString.of_int z
  | PyStr s => PyString.repr s
  | PyList l => "[" ++ String.concat ", " (map repr l) ++ "]"
  | PyDict d =>
      "{" ++ String.concat ", "
               (map (fun kv => match kv with
                               | (k, x) => PyString.repr k ++ ": " ++ repr x
                               end) d) ++ "}"
  end.

(** [str(v)], also what an f-string renders for [{v}] *)
Definition str (v : pyval) : string :=
  match v with
  | PyStr s => s
  | _ => repr v
  end.

End Py.

(* ================================================================== *)
(** * server.py: registry, invoker, classifier, normalizer *)
(* ================================================================== *)

(** [TOOLS]: probe id to module path. *)
Definition TOOLS : list (string * string) :=
  [ ("clickjacking", "Tools.ClickJacking_Tester");
    ("cors", "Tools.CORS_detection");
    ("directory_listing", "Tools.Directory_Listing_Check");
    ("http_headers", "Tools.HTTP_Security_Header_Analysis");
    ("insecure_cookies", "Tools.Missing_Cookies");
    ("open_redirect", "Tools.OpenRedirect");
    ("outdated_software", "Tools.outdates_software");
    ("info_disclosure", "Tools.Sensitive_Info_Disclosure");
    ("ssl_tls", "Tools.SSL_TLS_checker");
    ("xss", "Tools.XSS");
    ("sql_injection", "Tools.SQL_injection");
    ("path_traversal", "Tools.pathtraversal") ].

(** [TOOLS.get(vuln)] *)
Fixpoint TOOLS_get_in (tools : list (string * string)) (vuln : string)
  : option string :=
  match tools with
  | [] => None
  | (k, path) :: rest => if String.eqb k vuln then Some path else TOOLS_get_in rest vuln
  end.

Definition TOOLS_get (vuln : string) : option string := TOOLS_get_in TOOLS vuln.

(** ** Probe capabilities

    The three ways [_call_tool_callable] calls a capability. *)
Inductive convention : Type :=
| TargetOnly      (* callable_obj(url) *)
| TargetTimeout   (* callable_obj(url, timeout=10) *)
| TargetNamed.    (* callable_obj(target=url) *)

(** What one call does: the interpreter cannot bind the arguments and raises
    [TypeError] before the body starts, or the body runs and returns or
    raises (possibly a [TypeError] of its own). *)
Inductive attempt : Type :=
| Rejected (msg : string)
| Ran (o : outcome pyval).

(** A capability: its behaviour for each calling convention and target. *)
Definition capability : Type := convention -> string -> attempt.

(** One call, with the record of what was attempted. *)
Definition call_log : Type := list (convention * attempt).

Definition call (f : capability) (c : convention) (url : string)
  : outcome pyval * call_log :=
  match f c url with
  | Rejected msg => (Raised (PyExn TypeError msg), [(c, Rejected msg)])
  | Ran o => (o, [(c, Ran o)])
  end.

(** [except TypeError] *)
Definition raised_type_error (o : outcome pyval) : bool :=
  match o with
  | Raised e => is_type_error e
  | Returned _ => false
  end.

(** [_call_tool_callable(callable_obj, url)] *)
Definition _call_tool_callable (callable_obj : capability) (url : string)
  : outcome pyval * call_log :=
  let (o1, l1) := call callable_obj TargetOnly url in
  if raised_type_error o1 then
    let (o2, l2) := call callable_obj TargetTimeout url in
    if raised_type_error o2 then
      let (o3, l3) := call callable_obj TargetNamed url in
      (o3, (l1 ++ l2 ++ l3)%list)
    else (o2, (l1 ++ l2)%list)
  else (o1, l1).

(** Number of calls in which the body of the capability ran. *)
Definition executions (l : call_log) : nat :=
  List.length (filter (fun ca => match snd ca with Ran _ => true | Rejected _ => false end) l).

Definition conventions_tried (l : call_log) : list convention := map fst l.

(** ** Blocked-response classifier *)

Definition BLOCK_KEYWORDS : list string :=
  ["captcha"; "verify you are human"; "cloudflare"; "bot"; "challenge"; "access denied"].

Definition BLOCKED_ERROR : string :=
  "Target likely blocked scan / WAF protection triggered".
Definition BLOCKED_DESCRIPTION : string :=
  "Scan could not retrieve headers/content due to bot protection/firewall.".
Definition BLOCKED_FIX : string :=
  "Manual verification required; optionally use browser-based scan mode.".

(** The dictionary returned when [blocked_reasons] is not empty. *)
Definition blocked_payload (meta : pyval) (blocked_reasons : list string) : pyval :=
  PyDict [ ("error", PyStr BLOCKED_ERROR);
           ("severity", PyStr "Unknown");
           ("description", PyStr BLOCKED_DESCRIPTION);
           ("fix", PyStr BLOCKED_FIX);
           ("references", PyList []);
           ("_meta", meta);
           ("blocked_reasons", PyList (map PyStr blocked_reasons)) ].

(** [status = tool_result.get("status_code") or tool_result.get("response_status_code")] *)
Definition extract_status (d : pydict) : pyval :=
  Py.or_ (Py.get d "status_code" PyNone) (Py.get d "response_status_code" PyNone).

(** [text_snippet = tool_result.get("text_snippet", '') or tool_result.get("body_snippet", '')] *)
Definition extract_snippet (d : pydict) : pyval :=
  Py.or_ (Py.get d "text_snippet" (PyStr EmptyString)) (Py.get d "body_snippet" (PyStr EmptyString)).

(** The [for keyword in [...]] loop, appending to [blocked_reasons]. *)
Fixpoint scan_keywords (keywords : list string) (lower_text : string)
         (blocked_reasons : list string) : list string :=
  match keywords with
  | [] => blocked_reasons
  | keyword :: rest =>
      scan_keywords rest lower_text
        (if PyString.contains keyword lower_text
         then (blocked_reasons ++ [keyword])%list else blocked_reasons)
  end.

(** [classify_blocked_response(tool_result)].  The local [headers] is
    assigned and never read. *)
Definition classify_blocked_response (tool_result : pyval) : outcome pyval :=
  match tool_result with
  | PyDict d =>
      let status := extract_status d in
      let text_snippet := extract_snippet d in
      let blocked_reasons : list string := [] in
      let blocked_reasons :=
        if Py.eq_int status 403 || Py.eq_int status 429
        then (blocked_reasons ++ [("HTTP " ++ Py.str status)%string])%list
        else blocked_reasons in
      blocked_reasons <-
        (if Py.truthy text_snippet then
           lower_text <- Py.lower text_snippet ;;
           Returned (scan_keywords BLOCK_KEYWORDS lower_text blocked_reasons)
         else Returned blocked_reasons) ;;
      match blocked_reasons with
      | _ :: _ => Returned (blocked_payload (Py.get d "_meta" (PyDict [])) blocked_reasons)
      | [] => Returned tool_result
      end
  | _ => Returned tool_result
  end.

(** ** Result normalizer *)

Definition default_references (name : string) : pyval :=
  PyList [ PyStr ("OWASP " ++ name ++ " Prevention");
           PyStr "CWE Reference"; PyStr "NIST Guidelines" ].

(** [vuln.replace("_", " ").title()] *)
Definition display_name (vuln : string) : string :=
  PyString.title (PyString.replace_char "_" " " vuln).

(** ["ok" if "error" not in str(data).lower() else "error"] *)
Definition result_status (data : pyval) : string :=
  if negb (PyString.contains "error" (PyString.lower (Py.str data)))
  then "ok" else "error".

(** The local variables [name], [severity], [description], [fix] and
    [references] of the loop of [normalize_results]. *)
Record item_fields : Type := ItemFields {
  item_name : pyval;
  item_severity : pyval;
  item_description : pyval;
  item_fix : pyval;
  item_references : pyval
}.

(** Their values after the [if isinstance(data, dict)] block. *)
Definition fields_of (vuln : string) (data : pyval) : item_fields :=
  let name := PyStr (display_name vuln) in
  let severity := PyStr "Unknown" in
  let description := PyStr "No description provided." in
  let fix_ := PyStr "No fix recommendation available." in
  let references := default_references (display_name vuln) in
  match data with
  | PyDict d =>
      if Py.has_key d "error" then
        ItemFields name
                   (Py.get d "severity" (PyStr "Unknown"))
                   (Py.get d "description" (Py.get d "error" PyNone))
                   (Py.get d "fix" (PyStr "Check backend service"))
                   references
      else
        ItemFields (Py.get d "name" name)
                   (Py.get d "severity" severity)
                   (Py.get d "description" description)
                   (Py.get d "fix" fix_)
                   (Py.get d "references" references)
  | _ => ItemFields name severity description fix_ references
  end.

(** The body of the loop of [normalize_results]: the dictionary appended
    for one [(vuln, data)] item. *)
Definition normalize_item (vuln : string) (data : pyval) : pydict :=
  let fields := fields_of vuln data in
  [ ("id", PyStr vuln);
    ("status", PyStr (result_status data));
    ("name", item_name fields);
    ("severity", item_severity fields);
    ("description", item_description fields);
    ("fix", item_fix fields);
    ("references", item_references fields);
    ("details", data) ].

(** [normalize_results(raw_results)] *)
Definition normalize_results (raw_results : pydict) : list pydict :=
  map (fun item => normalize_item (fst item) (snd item)) raw_results.

(** ** Dispatcher *)

(** A loaded module, seen through [hasattr]/[callable]/[getattr]: the
    callable attribute of a given name, when there is one. *)
Definition pymodule : Type := string -> option capability.

(** What [importlib.import_module(module_path)] does. *)
Inductive import_result : Type :=
| ImportFails (e : pyexn)
| Imported (m : pymodule).

Definition environment : Type := string -> import_result.

(** [for name in ("run","scan","main","check"): ...] *)
Fixpoint find_callable (m : pymodule) (names : list string) : option capability :=
  match names with
  | [] => None
  | name :: rest =>
      match m name with
      | Some f => Some f
      | None => find_callable m rest
      end
  end.

Definition ENTRY_NAMES : list string := ["run"; "scan"; "main"; "check"].

Definition error_result (message : string) : pyval :=
  PyDict [("error", PyStr message)].

(** [run_tool_async(vuln, url)], with the record of the calls made to the
    capability.  A module object is not itself callable, so a module with
    none of the four entry points gives the "No callable found" result. *)
Definition run_tool_async (env : environment) (vuln url : string)
  : outcome (string * pyval) * call_log :=
  match TOOLS_get vuln with
  | None => (Returned (vuln, error_result ("Tool '" ++ vuln ++ "' not found")), [])
  | Some module_path =>
      if String.eqb module_path EmptyString then
        (Returned (vuln, error_result ("Tool '" ++ vuln ++ "' not found")), [])
      else
        match env module_path with
        | ImportFails e =>
            (Returned (vuln, error_result ("ImportError: " ++ str_of_exn e)), [])
        | Imported module =>
            match find_callable module ENTRY_NAMES with
            | None =>
                (Returned (vuln, error_result ("No callable found in " ++ module_path)), [])
            | Some callable_obj =>
                let (result, log) := _call_tool_callable callable_obj url in
                (result <- result ;;
                 result <- classify_blocked_response result ;;
                 Returned (vuln, result), log)
            end
        end
  end.

(** [asyncio.gather] over the tasks with [return_exceptions=False], once every task has
    settled: the list of results in task order when none raised, otherwise
    the exceptions raised, in task order. *)
Fixpoint gather {A : Type} (tasks : list (outcome A)) : list A + list pyexn :=
  match tasks with
  | [] => inl []
  | t :: rest =>
      match t, gather rest with
      | Returned a, inl done => inl (a :: done)
      | Returned _, inr excs => inr excs
      | Raised e, inl _ => inr [e]
      | Raised e, inr excs => inr (e :: excs)
      end
  end.

(** [selected_vulns = payload.vulnerabilities or list(TOOLS.keys())] *)
Definition selected_vulns (vulnerabilities : list string) : list string :=
  match vulnerabilities with
  | [] => map fst TOOLS
  | _ => vulnerabilities
  end.

(** [{v: {"error": f"Tool run failed: {str(e)}"} for v in selected_vulns}] *)
Definition tool_run_failed (selected : list string) (e : pyexn) : pydict :=
  Py.of_pairs
    (map (fun v => (v, error_result ("Tool run failed: " ++ str_of_exn e))) selected).

(** The outcome of the task [run_tool_async(v, url)]. *)
Definition task (env : environment) (url : string) (v : string)
  : outcome (string * pyval) :=
  fst (run_tool_async env v url).

(** [run_all_tools()]: the tasks of the comprehension, gathered. *)
Definition run_all_tools (env : environment) (url : string) (selected : list string)
  : pydict + list pyexn :=
  match gather (map (task env url) selected) with
  | inl completed => inl (Py.of_pairs completed)
  | inr excs => inr excs
  end.

(** [raw_results] after the [try]/[except] around [run_all_tools()].
    [gather] re-raises the exception of the task that fails first; which of
    the failing tasks that is depends on scheduling, so the value is given
    as a relation. *)
Inductive raw_results_of (env : environment) (url : string) (selected : list string)
  : pydict -> Prop :=
| raw_completed : forall raw,
    run_all_tools env url selected = inl raw ->
    raw_results_of env url selected raw
| raw_failed : forall excs e,
    run_all_tools env url selected = inr excs ->
    In e excs ->
    raw_results_of env url selected (tool_run_failed selected e).

(** ** Risk computation *)

(** [r.get("severity", '').lower() in ("critical", "high")] *)
Definition counts_as_high (r : pydict) : outcome bool :=
  s <- Py.lower (Py.get r "severity" (PyStr EmptyString)) ;;
  Returned (String.eqb s "critical" || String.eqb s "high").

(** [sum(1 for r in normalized if ...)] *)
Fixpoint high_count_from (acc : Z) (normalized : list pydict) : outcome Z :=
  match normalized with
  | [] => Returned acc
  | r :: rest =>
      b <- counts_as_high r ;;
      high_count_from (if b then acc + 1 else acc) rest
  end.

Definition risk_level_of (high_count : Z) : string :=
  if high_count >=? 3 then "High"
  else if high_count =? 0 then "Low"
  else "Medium".

(** The [try]/[except] block computing [(risk_score, risk_level)]. *)
Definition compute_risk (normalized : list pydict) : Z * string :=
  match high_count_from 0 normalized with
  | Returned high_count => (Z.min 100 (high_count * 10), risk_level_of high_count)
  | Raised _ => (0, "Unknown")
  end.

(** The part of the response of [scan_url] that the probes determine. *)
Record report : Type := Report {
  results : list pydict;
  risk_score : Z;
  risk_level : string
}.

Definition build_report (raw_results : pydict) : report :=
  let normalized := normalize_results raw_results in
  let risk := compute_risk normalized in
  Report normalized (fst risk) (snd risk).

(** The reports a dispatch over [selected] can end in. *)
Definition report_of (env : environment) (url : string)
           (selected : list string) (rep : report) : Prop :=
  exists raw, raw_results_of env url selected raw /\ rep = build_report raw.

(** A scan of [url] for the requested ids, once the URL passed the
    scheme-and-host validation. *)
Definition scan_reports (env : environment) (url : string)
           (vulnerabilities : list string) (rep : report) : Prop :=
  report_of env url (selected_vulns vulnerabilities) rep.

(* ================================================================== *)
(** * The specification's reading of the classifier and the aggregator *)
(* ================================================================== *)

(** Two strings that differ at most in the case of their letters. *)
Fixpoint same_ignoring_case (a b : string) : bool :=
  match a, b with
  | EmptyString, EmptyString => true
  | String x a', String y b' =>
      Ascii.eqb (PyString.lower_char x) (PyString.lower_char y)
      && same_ignoring_case a' b'
  | _, _ => false
  end.

(** [m] occurs in [text] up to the case of letters. *)
Definition occurs_ignoring_case (keyword text : string) : Prop :=
  exists before m after,
    text = before ++ m ++ after /\ same_ignoring_case m keyword = true.

(** The specification's [highCount]: the findings whose severity is, up to
    case, the word critical or the word high. *)
Definition spec_is_high (r : pydict) : bool :=
  match Py.lookup r "severity" with
  | Some (PyStr s) => same_ignoring_case s "critical" || same_ignoring_case s "high"
  | _ => false
  end.

Definition spec_high_count (findings : list pydict) : Z :=
  Z.of_nat (List.length (filter spec_is_high findings)).

Definition spec_level (high_count : Z) : string :=
  if 3 <=? high_count then "High"
  else if high_count =? 0 then "Low" else "Medium".

(** The specification's trigger reasons for a status and a text excerpt. *)
Definition spec_status_reasons (status : pyval) : list string :=
  match status with
  | PyInt z =>
      if z =? 403 then ["HTTP 403"]
      else if z =? 429 then ["HTTP 429"] else []
  | _ => []
  end.

Definition spec_keyword_reasons (text : string) : list string :=
  filter (fun keyword => PyString.contains keyword (PyString.lower text)) BLOCK_KEYWORDS.

(** A finding's field, and the severities of a list of findings. *)
Definition field (r : pydict) (k : string) : option pyval := Py.lookup r k.

Definition severities (findings : list pydict) : list (option pyval) :=
  map (fun r => field r "severity") findings.

(** The severity of every finding is a string (or the field is absent). *)
Definition severity_is_text (r : pydict) : Prop :=
  match field r "severity" with
  | Some (PyStr _) | None => True
  | Some _ => False
  end.

(** The excerpt of a probe result is text, or empty. *)
Definition snippet_is_text (d : pydict) : Prop :=
  match extract_snippet d with
  | PyStr _ => True
  | v => Py.truthy v = false
  end.

(** A capability that raises on every call, whatever the convention. *)
Definition raises_on_every_call (f : capability) (url : string) : Prop :=
  forall c, match f c url with
            | Ran (Returned _) => False
            | _ => True
            end.

(** The body of a capability never raises [TypeError] itself. *)
Definition body_never_type_error (f : capability) (url : string) : Prop :=
  forall c e, f c url = Ran (Raised e) -> is_type_error e = false.

(** The capability accepts the calling convention: the body runs. *)
Definition accepts (f : capability) (url : string) (c : convention) : Prop :=
  exists o, f c url = Ran o.

(** The capability the registry and the environment resolve an id to. *)
Definition resolve (env : environment) (vuln : string) : option capability :=
  match TOOLS_get vuln with
  | None => None
  | Some module_path =>
      if String.eqb module_path EmptyString then None
      else match env module_path with
           | ImportFails _ => None
           | Imported m => find_callable m ENTRY_NAMES
           end
  end.

(** The ids of a list of findings, in order. *)
Definition finding_ids (findings : list pydict) : list (option pyval) :=
  map (fun r => field r "id") findings.

(** The finding of a given id in a report, when there is one. *)
Definition finding_of (findings : list pydict) (vuln : string) : option pydict :=
  find (fun r => match field r "id" with
                 | Some (PyStr s) => String.eqb s vuln
                 | _ => false
                 end) findings.

(** The text the classifier scans: the excerpt when it is a string. *)
Definition snippet_text (d : pydict) : string :=
  match extract_snippet d with
  | PyStr s => s
  | _ => EmptyString
  end.

Definition ALL_CONVENTIONS : list convention :=
  [TargetOnly; TargetTimeout; TargetNamed].

Definition accepts_b (f : capability) (url : string) (c : convention) : bool :=
  match f c url with Ran _ => true | Rejected _ => false end.

(** The first convention, in priority order, that the capability accepts. *)
Definition first_accepted (f : capability) (url : string) : option convention :=
  find (accepts_b f url) ALL_CONVENTIONS.

(** The conventions tried up to and including [c]. *)
Definition conventions_upto (c : convention) : list convention :=
  match c with
  | TargetOnly => [TargetOnly]
  | TargetTimeout => [TargetOnly; TargetTimeout]
  | TargetNamed => [TargetOnly; TargetTimeout; TargetNamed]
  end.

(** The finding [normalize_results] builds for a [{"error": message}]
    result. *)
Definition failure_finding (vuln message : string) : pydict :=
  [ ("id", PyStr vuln);
    ("status", PyStr "error");
    ("name", PyStr (display_name vuln));
    ("severity", PyStr "Unknown");
    ("description", PyStr message);
    ("fix", PyStr "Check backend service");
    ("references", default_references (display_name vuln));
    ("details", error_result message) ].

(** The findings of a report that carry a given id. *)
Definition has_id (vuln : string) (r : pydict) : bool :=
  match field r "id" with
  | Some (PyStr s) => String.eqb s vuln
  | _ => false
  end.

Definition entries_for (findings : list pydict) (vuln : string) : nat :=
  List.length (filter (has_id vuln) findings).

(** The items of another key than [x]. *)
Definition other_than (x : string) (p : string * pyval) : bool :=
  negb (String.eqb (fst p) x).

(** A value supplied by the result, else the default. *)
Definition supplied_or (d : pydict) (k : string) (default : pyval) : pyval :=
  match Py.lookup d k with
  | Some v => v
  | None => default
  end.

(* ------------------------------------------------------------------ *)
(** ** Concrete probes and environments used in the examples *)
(* ------------------------------------------------------------------ *)

Module Examples.

Definition url : string := "http://example.test/".

Definition no_target_keyword : string :=
  "run() got an unexpected keyword argument 'target'".

(** [def run(url, timeout=10): raise ValueError("boom")] *)
Definition raising_probe : capability :=
  fun c _ =>
    match c with
    | TargetNamed => Rejected no_target_keyword
    | _ => Ran (Raised (PyExn (OtherError "ValueError") "boom"))
    end.

(** [def run(url, timeout=10): return len(None)]: the body itself raises
    [TypeError]. *)
Definition type_error_probe : capability :=
  fun c _ =>
    match c with
    | TargetNamed => Rejected no_target_keyword
    | _ => Ran (Raised (PyExn TypeError "object of type 'NoneType' has no len()"))
    end.

(** [def run(url, timeout=10): return {"name": ..., "severity": "Low"}] *)
Definition healthy_result : pyval :=
  PyDict [("name", PyStr "CORS Check"); ("severity", PyStr "Low")].

Definition healthy_probe : capability :=
  fun c _ =>
    match c with
    | TargetNamed => Rejected no_target_keyword
    | _ => Ran (Returned healthy_result)
    end.

(** [def check(target): ...], accepted by the third convention only. *)
Definition named_only_probe : capability :=
  fun c _ =>
    match c with
    | TargetNamed => Ran (Returned healthy_result)
    | TargetOnly => Rejected "check() takes 0 positional arguments but 1 was given"
    | TargetTimeout => Rejected "check() got an unexpected keyword argument 'timeout'"
    end.

Definition module_with_run (f : capability) : pymodule :=
  fun name => if String.eqb name "run" then Some f else None.

(** [Tools.XSS.run] raises on every call, [Tools.CORS_detection.run] is
    healthy, no other module can be imported. *)
Definition env : environment :=
  fun module_path =>
    if String.eqb module_path "Tools.XSS" then Imported (module_with_run raising_probe)
    else if String.eqb module_path "Tools.CORS_detection"
    then Imported (module_with_run healthy_probe)
    else ImportFails (PyExn (OtherError "ModuleNotFoundError")
                        ("No module named '" ++ module_path ++ "'")).

Definition finding (severity : pyval) : pydict :=
  [("id", PyStr "probe"); ("severity", severity)].

(** A failure payload that supplies its own name, fix and references. *)
Definition failure_with_fields : pyval :=
  PyDict [ ("error", PyStr "boom"); ("name", PyStr "Custom Name");
           ("references", PyList [PyStr "https://example.test/ref"]) ].

(** A probe result that met an HTTP 403. *)
Definition forbidden_result : pyval :=
  PyDict [ ("name", PyStr "XSS"); ("severity", PyStr "Low");
           ("status_code", PyInt 403); ("text_snippet", PyStr "Forbidden") ].

End Examples.

(* ------------------------------------------------------------------ *)
(** ** Further readings of the findings *)
(* ------------------------------------------------------------------ *)

(** The id and the details of a finding. *)
Definition finding_item (r : pydict) : option pyval * option pyval :=
  (field r "id", field r "details").

(** A raw item as a finding shows it. *)
Definition raw_item (kv : string * pyval) : option pyval * option pyval :=
  (Some (PyStr (fst kv)), Some (snd kv)).

(** The four keys the classifier reads a status and an excerpt from. *)
Definition CLASSIFIER_KEYS : list string :=
  ["status_code"; "response_status_code"; "text_snippet"; "body_snippet"].

Definition RISK_LEVELS : list string := ["Low"; "Medium"; "High"; "Unknown"].

(** Two runs of the count that agree up to the exception raised. *)
Definition same_count (a b : outcome Z) : Prop :=
  match a, b with
  | Returned x, Returned y => x = y
  | Raised _, Raised _ => True
  | _, _ => False
  end.


(* ================================================================== *)
(** * The probes' pure helpers (Tools/) *)
(* ================================================================== *)

(** ** More of Python's [str] *)

Module PyText.

(** [c.isspace()] on the ASCII range: tab to carriage return, the four
    separators 28 to 31, and the space. *)
Definition is_space (c : ascii) : bool :=
  let n := nat_of_ascii c in
  ((9 <=? n)%nat && (n <=? 13)%nat) || ((28 <=? n)%nat && (n <=? 32)%nat).

Definition is_digit (c : ascii) : bool :=
  let n := nat_of_ascii c in (48 <=? n)%nat && (n <=? 57)%nat.

(** [s.lstrip()], [s.rstrip()], [s.strip()] *)
Fixpoint lstrip (s : string) : string :=
  match s with
  | EmptyString => EmptyString
  | String c s' => if is_space c then lstrip s' else s
  end.

Fixpoint rstrip (s : string) : string :=
  match s with
  | EmptyString => EmptyString
  | String c s' =>
      match rstrip s' with
      | EmptyString => if is_space c then EmptyString else String c EmptyString
      | r => String c r
      end
  end.

Definition strip (s : string) : string := rstrip (lstrip s).

(** [s.upper()] *)
Fixpoint upper (s : string) : string :=
  match s with
  | EmptyString => EmptyString
  | String c s' => String (PyString.upper_char c) (upper s')
  end.

(** [s.split(sep)] for a one-character separator; [cur] is the piece being
    read. *)
Fixpoint split_on (sep : ascii) (cur : string) (s : string) : list string :=
  match s with
  | EmptyString => [cur]
  | String c s' =>
      if Ascii.eqb c sep then cur :: split_on sep EmptyString s'
      else split_on sep (cur ++ String c EmptyString) s'
  end.

(** The first run of characters that are not white space, and what follows
    it. *)
Fixpoint take_word (s : string) : string :=
  match s with
  | EmptyString => EmptyString
  | String c s' => if is_space c then EmptyString else String c (take_word s')
  end.

Fixpoint drop_word (s : string) : string :=
  match s with
  | EmptyString => EmptyString
  | String c s' => if is_space c then s else drop_word s'
  end.

(** [s.split(None, 1)]: the first word and, when something other than
    white space follows it, the rest from there on. *)
Definition split_first_word (s : string) : list string :=
  match lstrip s with
  | EmptyString => []
  | s' =>
      match lstrip (drop_word s') with
      | EmptyString => [take_word s']
      | rest => [take_word s'; rest]
      end
  end.

(** No character of [s] is white space; no character of [s] is [c]. *)
Fixpoint no_space (s : string) : bool :=
  match s with
  | EmptyString => true
  | String c s' => negb (is_space c) && no_space s'
  end.

Fixpoint lacks (c : ascii) (s : string) : bool :=
  match s with
  | EmptyString => true
  | String x s' => negb (Ascii.eqb x c) && lacks c s'
  end.

(** [s[:n]] *)
Definition prefix_of (n : nat) (s : string) : string := String.substring 0 n s.

(** [re.findall(r"\d+", s)]: the maximal runs of digits, left to right;
    [run] is the run being read. *)
Fixpoint findall_digits_from (run : string) (s : string) : list string :=
  match s with
  | EmptyString => match run with EmptyString => [] | _ => [run] end
  | String c s' =>
      if is_digit c then findall_digits_from (run ++ String c EmptyString) s'
      else match run with
           | EmptyString => findall_digits_from EmptyString s'
           | _ => run :: findall_digits_from EmptyString s'
           end
  end.

Definition findall_digits (s : string) : list string :=
  findall_digits_from EmptyString s.

Fixpoint all_digits (s : string) : bool :=
  match s with
  | EmptyString => true
  | String c s' => is_digit c && all_digits s'
  end.

(** A non-empty run of digits. *)
Definition digit_run (p : string) : Prop :=
  all_digits p = true /\ p <> EmptyString.

(** [int(p)] for a run of digits [p]. *)
Definition int_of_digits (p : string) : Z :=
  match NilEmpty.uint_of_string p with
  | Some u => Z.of_uint u
  | None => 0
  end.

End PyText.

(** ** Tools/outdates_software.py *)

Module Outdated.

(** [_parse_version_tuple(ver_str)]; with no digits the comprehension is
    empty, as the early return [()] is. *)
Definition _parse_version_tuple (ver_str : string) : list Z :=
  map PyText.int_of_digits (PyText.findall_digits ver_str).

(** The [for i in range(maxlen)] loop of [_is_version_less], from index
    [i] with [n] indices left; a missing digit counts as 0. *)
Fixpoint version_loop (v_tuple threshold_tuple : list Z) (i n : nat) : bool :=
  match n with
  | O => false
  | S n' =>
      let a := nth i v_tuple 0 in
      let b := nth i threshold_tuple 0 in
      if a <? b then true
      else if a >? b then false
      else version_loop v_tuple threshold_tuple (S i) n'
  end.

(** [_is_version_less(v_tuple, threshold_tuple)] *)
Definition _is_version_less (v_tuple threshold_tuple : list Z) : bool :=
  let maxlen := Nat.max (List.length v_tuple) (List.length threshold_tuple) in
  version_loop v_tuple threshold_tuple 0 maxlen.

Definition MIN_ACCEPTABLE_VERSIONS : list (string * list Z) :=
  [ ("apache", [2; 4; 50]);
    ("nginx", [1; 18; 0]);
    ("php", [7; 4; 0]);
    ("tomcat", [9; 0; 0]);
    ("iis", [10; 0; 0]) ].

(** ['.'.join(str(x) for x in threshold)] *)
Definition render_version (threshold : list Z) : string :=
  String.concat "." (map PyString.of_int threshold).

(** The two versions have the same digits once the shorter is padded with
    zeros. *)
Definition same_version (v t : list Z) : Prop :=
  forall i, nth i v 0 = nth i t 0.

End Outdated.

(** ** Tools/CORS_detection.py *)

Module Cors.

(** Response headers: names and values, in order. *)
Definition headers : Type := list (string * string).

(** The [for k, v in headers.items()] loop of [_extract_header_ci]. *)
Fixpoint header_loop (hs : headers) (name : string) : option string :=
  match hs with
  | [] => None
  | (k, v) :: rest =>
      if String.eqb (PyString.lower k) (PyString.lower name) then Some v
      else header_loop rest name
  end.

(** [_extract_header_ci(headers, name)] *)
Definition _extract_header_ci (hs : headers) (name : string) : option string :=
  match hs with
  | [] => None
  | _ => header_loop hs name
  end.

Definition _TEST_ORIGIN : string := "https://example.com".

Definition NOTE_WILDCARD : string :=
  "Wildcard origin detected — risky if any sensitive data is returned or if credentials are expected.".
Definition NOTE_REFLECTION : string :=
  "Access-Control-Allow-Origin appears to reflect the incoming Origin header (origin reflection).".
Definition NOTE_SPECIFIC : string := "Specific origin allowed (not wildcard).".
Definition NOTE_NO_ACAO : string :=
  "No Access-Control-Allow-Origin header present (no cross-origin access allowed).".
Definition NOTE_CREDENTIALS : string := "Access-Control-Allow-Credentials: true".
Definition NOTE_CRITICAL : string :=
  "Credentials allowed together with wildcard/reflection -> critical risk for cross-origin token/cookie theft.".

(** A header value that is present and not empty ([if acao:]). *)
Definition present (h : option string) : option string :=
  match h with
  | Some EmptyString | None => None
  | Some s => Some s
  end.

(** The locals [severity] and [notes] of [check_cors] after the
    Access-Control-Allow-Origin block. *)
Definition assess_origin (acao : option string) : string * list string :=
  match present acao with
  | Some a =>
      let notes := [("Access-Control-Allow-Origin: " ++ a)%string] in
      if String.eqb (PyText.strip a) "*" then
        ("HIGH", (notes ++ [NOTE_WILDCARD])%list)
      else if String.eqb (PyText.strip a) _TEST_ORIGIN then
        ("HIGH", (notes ++ [NOTE_REFLECTION])%list)
      else ("MEDIUM", (notes ++ [NOTE_SPECIFIC])%list)
  | None => ("LOW", [NOTE_NO_ACAO])
  end.

(** [acac and acac.strip().lower() == "true"] *)
Definition allows_credentials (acac : option string) : bool :=
  match present acac with
  | Some c => String.eqb (PyString.lower (PyText.strip c)) "true"
  | None => false
  end.

(** The locals [severity] and [notes] of [check_cors] after the
    credentials block. *)
Definition assess (acao acac : option string) : string * list string :=
  let (severity, notes) := assess_origin acao in
  if allows_credentials acac then
    let notes := (notes ++ [NOTE_CREDENTIALS])%list in
    if String.eqb severity "HIGH" then (severity, (notes ++ [NOTE_CRITICAL])%list)
    else ((if String.eqb severity "MEDIUM" then "HIGH" else severity), notes)
  else (severity, notes).

End Cors.

(** ** Tools/Missing_Cookies.py *)

Module Cookies.

(** The list [missing_flags] built for one raw [Set-Cookie] value. *)
Definition missing_flags (raw : string) : list string :=
  let low := PyString.lower raw in
  let flags : list string := [] in
  let flags := if negb (PyString.contains "secure" low)
               then (flags ++ ["Secure"])%list else flags in
  let flags := if negb (PyString.contains "httponly" low)
               then (flags ++ ["HttpOnly"])%list else flags in
  if negb (PyString.contains "samesite" low)
  then (flags ++ ["SameSite (missing)"])%list
  else if PyString.contains "samesite=none" low
       then (flags ++ ["SameSite=None (risky)"])%list
       else flags.

(** The [for raw in raw_set] loop alone: the entries it appends to
    [insecure]. *)
Fixpoint insecure_loop (raw_set : list string) : list pydict :=
  match raw_set with
  | [] => []
  | raw :: rest =>
      match missing_flags raw with
      | [] => insecure_loop rest
      | flags =>
          [ ("cookie", PyStr (PyText.prefix_of 200 raw));
            ("issues", PyList (map PyStr flags)) ] :: insecure_loop rest
      end
  end.

(** [raw_set]: [resp.headers.get_all("Set-Cookie")] when the headers object
    has [get_all], else [[cookies]]. *)
Definition raw_set_of (get_all : option (list string)) (cookies : string)
  : list string :=
  match get_all with
  | Some all => all
  | None => [cookies]
  end.

(** A [Set-Cookie] value that is present and not empty ([if cookies:]). *)
Definition given (cookies : option string) : option string :=
  match cookies with
  | Some EmptyString | None => None
  | Some c => Some c
  end.

(** The local [insecure] of [check_cookies] once the request succeeded.
    [cookies] is [resp.headers.get("Set-Cookie")]; [load] is what
    [SimpleCookie().load(cookies)] does, which returns nothing or raises
    [CookieError] on a value it cannot parse; the exception is not caught. *)
Definition insecure (load : string -> outcome unit) (cookies : option string)
           (get_all : option (list string)) : outcome (list pydict) :=
  match given cookies with
  | Some c =>
      _ <- load c ;;
      Returned (insecure_loop (raw_set_of get_all c))
  | None => Returned []
  end.

(** [severity = "HIGH" if insecure else "LOW"] *)
Definition severity (load : string -> outcome unit) (cookies : option string)
           (get_all : option (list string)) : outcome string :=
  found <- insecure load cookies get_all ;;
  Returned (match found with [] => "LOW" | _ => "HIGH" end).

End Cookies.

(** ** Tools/ClickJacking_Tester.py *)

Module Clickjacking.

(** A character of the class [[^\s;']]. *)
Definition origin_char (c : ascii) : bool :=
  negb (PyText.is_space c || Ascii.eqb c ";" || Ascii.eqb c "'").

(** The pattern [https?://[^\s;']+] matches at the start of [s]. *)
Definition origin_at (s : string) : bool :=
  match s with
  | String "h" (String "t" (String "t" (String "p" rest))) =>
      match rest with
      | String ":" (String "/" (String "/" (String c _))) => origin_char c
      | String "s" (String ":" (String "/" (String "/" (String c _)))) => origin_char c
      | _ => false
      end
  | _ => false
  end.

(** [re.search(r"https?://[^\s;']+", s)] finds a match. *)
Fixpoint has_origin (s : string) : bool :=
  origin_at s ||
  match s with
  | EmptyString => false
  | String _ s' => has_origin s'
  end.

(** [_is_frame_ancestors_safe(fa_value)] *)
Definition _is_frame_ancestors_safe (fa_value : string) : bool :=
  match fa_value with
  | EmptyString => false
  | _ =>
      let lower := PyString.lower fa_value in
      if PyString.contains "'none'" lower || PyString.contains "'self'" lower then true
      else if has_origin fa_value then true
      else false
  end.

(** [[d.strip() for d in csp_value.split(';') if d.strip()]] *)
Definition directives (csp_value : string) : list string :=
  filter (fun d => negb (String.eqb d EmptyString))
         (map PyText.strip (PyText.split_on ";" EmptyString csp_value)).

(** The [for d in directives] loop of [_parse_frame_ancestors]. *)
Fixpoint directive_loop (ds : list string) : option string :=
  match ds with
  | [] => None
  | d :: rest =>
      match PyText.split_first_word d with
      | word :: tail =>
          if String.eqb (PyString.lower word) "frame-ancestors" then
            Some (match tail with
                  | [value] => PyText.strip value
                  | _ => EmptyString
                  end)
          else directive_loop rest
      | [] => directive_loop rest
      end
  end.

(** [_parse_frame_ancestors(csp_value)] *)
Definition _parse_frame_ancestors (csp_value : string) : option string :=
  match csp_value with
  | EmptyString => None
  | _ => directive_loop (directives csp_value)
  end.

(** A header value that is present and not empty ([if xfo:], [if csp]). *)
Definition given (h : option string) : option string :=
  match h with
  | Some EmptyString | None => None
  | Some s => Some s
  end.

(** [xfo.strip().upper() in ("DENY", "SAMEORIGIN")] *)
Definition xfo_protects (xfo : string) : bool :=
  let xfoval := PyText.upper (PyText.strip xfo) in
  String.eqb xfoval "DENY" || String.eqb xfoval "SAMEORIGIN".

(** [fa = _parse_frame_ancestors(csp) if csp else None] *)
Definition frame_ancestors_of (csp : option string) : option string :=
  match given csp with
  | Some c => _parse_frame_ancestors c
  | None => None
  end.

(** The locals [severity] and [notes] of [check_clickjacking] for the
    headers [x-frame-options] and [content-security-policy]. *)
Definition assess (xfo csp : option string) : string * list string :=
  let notes : list string := [] in
  let safe := false in
  let (notes, safe) :=
    match given xfo with
    | Some x => ((notes ++ [("X-Frame-Options: " ++ x)%string])%list,
                 if xfo_protects x then true else safe)
    | None => ((notes ++ ["X-Frame-Options: MISSING"])%list, safe)
    end in
  let fa := frame_ancestors_of csp in
  let notes :=
    (notes ++ [("CSP frame-ancestors: "
                ++ match fa with Some v => v | None => "none" end)%string])%list in
  let safe :=
    if _is_frame_ancestors_safe (match given fa with Some v => v | None => EmptyString end)
    then true else safe in
  let severity :=
    if safe then "LOW"
    else match given xfo, given fa with
         | None, None => "HIGH"
         | _, _ => "MEDIUM"
         end in
  (severity, notes).

End Clickjacking.

(* ================================================================== *)
(** * Facts about strings *)
(* ================================================================== *)

Module StringFacts.
Import PyString.

Lemma app_assoc (a b c : string) : (a ++ b) ++ c = a ++ b ++ c.
Proof. induction a as [|x a IH]; simpl; [reflexivity | now rewrite IH]. Qed.

Lemma app_nil_r (a : string) : a ++ EmptyString = a.
Proof. induction a as [|x a IH]; simpl; [reflexivity | now rewrite IH]. Qed.

Lemma starts_with_spec (n h : string) :
  starts_with n h = true <-> exists b, h = n ++ b.
Proof.
  revert h; induction n as [|x n IH]; intros h; simpl.
  - split; [intros _; now exists h | reflexivity].
  - destruct h as [|y h].
    + split; [discriminate | intros [b Hb]; discriminate].
    + rewrite andb_true_iff, Ascii.eqb_eq, IH. split.
      * intros [-> [b ->]]. now exists b.
      * intros [b Hb]. injection Hb as -> ->. split; [reflexivity | now exists b].
Qed.

Lemma contains_spec (n h : string) :
  contains n h = true <-> exists a b, h = a ++ n ++ b.
Proof.
  induction h as [|y h IH].
  - simpl. rewrite orb_false_r, starts_with_spec. split.
    + intros [b Hb]. now exists EmptyString, b.
    + intros [a [b Hb]]. destruct a; [now exists b | discriminate].
  - cbn [contains]. rewrite orb_true_iff, starts_with_spec, IH. split.
    + intros [[b Hb] | [a [b Hb]]].
      * now exists EmptyString, b.
      * exists (String y a), b. simpl. now rewrite Hb.
    + intros [a [b Hb]]. destruct a as [|x a]; simpl in Hb.
      * left. now exists b.
      * right. injection Hb as _ ->. now exists a, b.
Qed.

Lemma lower_app (a b : string) : lower (a ++ b) = lower a ++ lower b.
Proof. induction a as [|x a IH]; simpl; [reflexivity | now rewrite IH]. Qed.

Lemma lower_split (t x y : string) :
  lower t = x ++ y -> exists a b, t = a ++ b /\ lower a = x /\ lower b = y.
Proof.
  revert t; induction x as [|c x IH]; intros t H; simpl in H.
  - exists EmptyString, t. now repeat split.
  - destruct t as [|d t]; simpl in H; [discriminate|].
    injection H as Hc Ht. destruct (IH _ Ht) as [a [b [-> [Ha Hb]]]].
    exists (String d a), b. simpl. now rewrite Hc, Ha.
Qed.

(** Comparing up to case is comparing the lower-cased strings. *)
Lemma same_ignoring_case_spec (a b : string) :
  same_ignoring_case a b = true <-> lower a = lower b.
Proof.
  revert b; induction a as [|x a IH]; intros [|y b]; simpl;
    try (split; [discriminate | discriminate]); [tauto|].
  rewrite andb_true_iff, Ascii.eqb_eq, IH. split.
  - now intros [-> ->].
  - intros H. now injection H.
Qed.

(** A keyword already in lower case occurs in the lower-cased text exactly
    when it occurs in the text up to case. *)
Lemma contains_lower_iff (keyword text : string) :
  lower keyword = keyword ->
  (contains keyword (lower text) = true <-> occurs_ignoring_case keyword text).
Proof.
  intros Hk. rewrite contains_spec. unfold occurs_ignoring_case. split.
  - intros [x [y H]].
    destruct (lower_split _ _ _ H) as [a [r [-> [Ha Hr]]]].
    destruct (lower_split _ _ _ Hr) as [m [b [-> [Hm Hb]]]].
    exists a, m, b. split; [reflexivity|].
    apply same_ignoring_case_spec. now rewrite Hm, Hk.
  - intros [a [m [b [-> Hm]]]]. apply same_ignoring_case_spec in Hm.
    exists (lower a), (lower b). now rewrite !lower_app, Hm, Hk.
Qed.

Lemma concat_has_member (sep x : string) (l : list string) :
  In x l -> exists a b, String.concat sep l = a ++ x ++ b.
Proof.
  induction l as [|y l IH]; intros Hin; [contradiction|].
  destruct Hin as [-> | Hin].
  - destruct l as [|z l]; simpl.
    + exists EmptyString, EmptyString. now rewrite app_nil_r.
    + now exists EmptyString, (sep ++ String.concat sep (z :: l)).
  - destruct (IH Hin) as [a [b Hab]].
    assert (Hc : String.concat sep (y :: l) = y ++ sep ++ String.concat sep l)
      by (destruct l; [contradiction | reflexivity]).
    rewrite Hc, Hab.
    exists (y ++ sep ++ a), b. now rewrite !app_assoc.
Qed.

End StringFacts.

(* ================================================================== *)
(** * Facts about dictionaries and [repr] *)
(* ================================================================== *)

Module DictFacts.

Lemma has_key_In (d : pydict) (k : string) :
  Py.has_key d k = true <-> In k (Py.keys d).
Proof.
  unfold Py.has_key. induction d as [|[k' v] d IH]; simpl.
  - split; [discriminate | contradiction].
  - destruct (String.eqb_spec k' k) as [-> | Hne].
    + split; [now left | reflexivity].
    + rewrite IH. split; [now right | intros [H | H]; [contradiction | exact H]].
Qed.

Lemma keys_set (d : pydict) (k : string) (v : pyval) :
  Py.keys (Py.set d k v) =
  if Py.has_key d k then Py.keys d else (Py.keys d ++ [k])%list.
Proof.
  unfold Py.has_key. induction d as [|[k' v'] d IH]; simpl; [reflexivity|].
  destruct (String.eqb_spec k' k) as [-> | Hne]; simpl; [reflexivity|].
  rewrite IH. now destruct (Py.lookup d k).
Qed.

Lemma lookup_set (d : pydict) (k k' : string) (v : pyval) :
  Py.lookup (Py.set d k v) k' =
  if String.eqb k k' then Some v else Py.lookup d k'.
Proof.
  induction d as [|[k0 v0] d IH]; simpl.
  - reflexivity.
  - destruct (String.eqb_spec k0 k) as [-> | Hne]; simpl.
    + now destruct (String.eqb k k').
    + destruct (String.eqb_spec k0 k') as [-> | Hne'].
      * destruct (String.eqb_spec k k'); [congruence | reflexivity].
      * exact IH.
Qed.

Lemma NoDup_keys_set (d : pydict) (k : string) (v : pyval) :
  NoDup (Py.keys d) -> NoDup (Py.keys (Py.set d k v)).
Proof.
  intros Hd. rewrite keys_set.
  destruct (Py.has_key d k) eqn:Hk; [exact Hd|].
  apply NoDup_app; [exact Hd | repeat constructor; intros [] | ].
  intros x Hx [<- | []].
  apply has_key_In in Hx. congruence.
Qed.

Lemma NoDup_keys_fold (pairs : list (string * pyval)) (d : pydict) :
  NoDup (Py.keys d) -> NoDup (Py.keys (fold_left Py.add_pair pairs d)).
Proof.
  revert d; induction pairs as [|kv pairs IH]; intros d Hd; simpl; [exact Hd|].
  apply IH. now apply NoDup_keys_set.
Qed.

Lemma In_keys_fold (pairs : list (string * pyval)) (d : pydict) (k : string) :
  In k (Py.keys (fold_left Py.add_pair pairs d)) <->
  In k (Py.keys d) \/ In k (map fst pairs).
Proof.
  revert d; induction pairs as [|kv pairs IH]; intros d; simpl; [tauto|].
  rewrite IH. unfold Py.add_pair at 1. rewrite keys_set.
  destruct (Py.has_key d (fst kv)) eqn:Hk.
  - apply has_key_In in Hk. intuition (subst; auto).
  - rewrite in_app_iff. simpl. intuition.
Qed.

(** The keys of a comprehension are distinct... *)
Lemma NoDup_keys_of_pairs (pairs : list (string * pyval)) :
  NoDup (Py.keys (Py.of_pairs pairs)).
Proof. apply (NoDup_keys_fold pairs []). constructor. Qed.

(** ... and are the keys of the pairs. *)
Lemma In_keys_of_pairs (pairs : list (string * pyval)) (k : string) :
  In k (Py.keys (Py.of_pairs pairs)) <-> In k (map fst pairs).
Proof.
  unfold Py.of_pairs.
  rewrite In_keys_fold. simpl. tauto.
Qed.

Lemma fold_distinct (pairs : list (string * pyval)) (d : pydict) :
  NoDup (Py.keys d ++ map fst pairs) ->
  fold_left Py.add_pair pairs d = (d ++ pairs)%list.
Proof.
  revert d; induction pairs as [|[k v] pairs IH]; intros d Hd; simpl.
  - now rewrite List.app_nil_r.
  - assert (Hset : Py.add_pair d (k, v) = (d ++ [(k, v)])%list).
    { unfold Py.add_pair; simpl. clear IH.
      assert (Hk : ~ In k (Py.keys d)).
      { intros Hin. simpl in Hd. apply NoDup_remove_2 in Hd.
        apply Hd, in_or_app. now left. }
      induction d as [|[k0 v0] d IHd]; simpl; [reflexivity|].
      destruct (String.eqb_spec k0 k) as [-> | Hne].
      - exfalso. apply Hk. now left.
      - f_equal. apply IHd.
        + simpl in Hd. now inversion Hd.
        + intros Hin. apply Hk. now right. }
    rewrite Hset, IH.
    + now rewrite <- List.app_assoc.
    + unfold Py.keys in *. rewrite map_app. simpl.
      now rewrite <- List.app_assoc.
Qed.

(** A comprehension over distinct keys is the list of its items. *)
Lemma of_pairs_distinct (pairs : list (string * pyval)) :
  NoDup (map fst pairs) -> Py.of_pairs pairs = pairs.
Proof.
  intros H. unfold Py.of_pairs.
  now rewrite fold_distinct.
Qed.

(** Duplicate keys collapse: as many items as distinct keys. *)
Lemma length_of_pairs (pairs : list (string * pyval)) :
  List.length (Py.of_pairs pairs) =
  List.length (nodup string_dec (map fst pairs)).
Proof.
  transitivity (List.length (Py.keys (Py.of_pairs pairs))).
  - unfold Py.keys. now rewrite length_map.
  - apply Permutation_length, NoDup_Permutation.
    + apply NoDup_keys_of_pairs.
    + apply NoDup_nodup.
    + intros k. now rewrite In_keys_of_pairs, nodup_In.
Qed.

Lemma fold_lookup (pairs : list (string * pyval)) (d : pydict) (k : string) (v : pyval) :
  (forall x, In (k, x) pairs -> x = v) ->
  In k (map fst pairs) ->
  Py.lookup (fold_left Py.add_pair pairs d) k = Some v.
Proof.
  revert d; induction pairs as [|[k0 v0] pairs IH]; intros d Hall Hin; [contradiction|].
  simpl. destruct (in_dec string_dec k (map fst pairs)) as [Hlater | Hnot].
  - apply IH; [intros x Hx; apply Hall; now right | exact Hlater].
  - destruct Hin as [Hk | Hin]; [|contradiction]. simpl in Hk. subst k0.
    assert (Hv : v0 = v) by (apply Hall; now left). subst v0.
    clear IH Hall. revert d.
    induction pairs as [|[k1 v1] pairs IH]; intros d; simpl.
    + unfold Py.add_pair; simpl. rewrite lookup_set. now rewrite String.eqb_refl.
    + assert (Hne : k1 <> k) by (intros ->; apply Hnot; now left).
      assert (Hn' : ~ In k (map fst pairs)) by (intros H; apply Hnot; now right).
      specialize (IH Hn').
      assert (Hswap : forall d', Py.lookup d' k = Some v ->
                Py.lookup (fold_left Py.add_pair pairs d') k = Some v).
      { clear IH d. induction pairs as [|[k2 v2] pairs IH2]; intros d' Hd'; simpl; [exact Hd'|].
        apply IH2.
        - intros H; apply Hnot. simpl in *. tauto.
        - intros H; apply Hn'. now right.
        - unfold Py.add_pair; simpl. rewrite lookup_set.
          destruct (String.eqb_spec k2 k) as [-> | _]; [|exact Hd'].
          exfalso. apply Hn'. now left. }
      apply Hswap. unfold Py.add_pair; simpl. rewrite !lookup_set, String.eqb_refl.
      destruct (String.eqb_spec k1 k); [contradiction | reflexivity].
Qed.

(** When every pair of key [k] carries the value [v], so does the
    comprehension. *)
Lemma lookup_of_pairs (pairs : list (string * pyval)) (k : string) (v : pyval) :
  (forall x, In (k, x) pairs -> x = v) ->
  In k (map fst pairs) ->
  Py.lookup (Py.of_pairs pairs) k = Some v.
Proof. apply fold_lookup. Qed.

(** The key of a dictionary shows in its [repr]. *)
Lemma repr_shows_key (d : pydict) (k : string) :
  Py.has_key d k = true ->
  PyString.contains (PyString.repr k) (Py.repr (PyDict d)) = true.
Proof.
  intros Hk. apply has_key_In in Hk.
  apply in_map_iff in Hk. destruct Hk as [[k' v] [Hfst Hin]]. simpl in Hfst. subst k'.
  cbn [Py.repr].
  set (item := fun kv : string * pyval =>
                 match kv with (k0, x) => PyString.repr k0 ++ ": " ++ Py.repr x end).
  assert (Hitem : In (item (k, v)) (map item d)) by now apply in_map.
  destruct (StringFacts.concat_has_member ", " _ _ Hitem) as [a [b Hab]].
  rewrite Hab. apply StringFacts.contains_spec.
  exists ("{" ++ a), ((": " ++ Py.repr v) ++ b ++ "}").
  unfold item. now rewrite !StringFacts.app_assoc.
Qed.

(** A dictionary with an ["error"] key is rendered as an error. *)
Lemma status_of_error_key (d : pydict) :
  Py.has_key d "error" = true -> result_status (PyDict d) = "error".
Proof.
  intros Hk. unfold result_status.
  assert (H : PyString.contains "error" (PyString.lower (Py.str (PyDict d))) = true).
  { apply repr_shows_key in Hk. apply StringFacts.contains_spec in Hk.
    destruct Hk as [a [b Hab]]. cbn [Py.str]. rewrite Hab.
    apply StringFacts.contains_spec.
    exists (PyString.lower (a ++ "'")), (PyString.lower ("'" ++ b)).
    change (PyString.repr "error") with ("'" ++ "error" ++ "'").
    now rewrite !StringFacts.lower_app, !StringFacts.app_assoc. }
  now rewrite H.
Qed.

End DictFacts.

(* ================================================================== *)
(** * The probe invoker *)
(* ================================================================== *)

Section Invoker.

Variable f : capability.
Variable url : string.

(** The invoker catches nothing but [TypeError]: a capability that raises
    on every call makes the invoker raise. *)
Lemma invoke_raises :
  raises_on_every_call f url ->
  exists e, fst (_call_tool_callable f url) = Raised e.
Proof.
  intros H. unfold _call_tool_callable, call.
  pose proof (H TargetOnly) as H1. pose proof (H TargetTimeout) as H2.
  pose proof (H TargetNamed) as H3.
  destruct (f TargetOnly url) as [m1 | [v1 | e1]]; [| contradiction |];
    cbn -[app];
    try (destruct (is_type_error e1); [| eexists; reflexivity]);
    (destruct (f TargetTimeout url) as [m2 | [v2 | e2]]; [| contradiction |];
     cbn -[app];
     try (destruct (is_type_error e2); [| eexists; reflexivity]);
     (destruct (f TargetNamed url) as [m3 | [v3 | e3]]; [| contradiction |];
      cbn -[app]; eexists; reflexivity)).
Qed.

End Invoker.

(** The conventions tried are a prefix of the fixed priority order, and a
    further one is tried exactly when the call before raised [TypeError]. *)
Lemma invoke_tries (f : capability) (url : string) :
  conventions_tried (snd (_call_tool_callable f url)) =
  if raised_type_error (fst (call f TargetOnly url)) then
    if raised_type_error (fst (call f TargetTimeout url))
    then ALL_CONVENTIONS else conventions_upto TargetTimeout
  else conventions_upto TargetOnly.
Proof.
  unfold _call_tool_callable, call.
  destruct (f TargetOnly url) as [m1 | [v1 | e1]]; cbn -[app];
    try reflexivity;
    try (destruct (is_type_error e1); [| reflexivity]);
    (destruct (f TargetTimeout url) as [m2 | [v2 | e2]]; cbn -[app];
     try reflexivity;
     try (destruct (is_type_error e2); [| reflexivity]);
     (destruct (f TargetNamed url) as [m3 | [v3 | e3]]; reflexivity)).
Qed.

Ltac invoke_case f c url Hb :=
  let H := fresh "Hcall" in
  destruct (f c url) as [? | [? | ?]] eqn:H; cbn -[app];
  try (erewrite (Hb c _ H); cbn -[app]).

(** C9 (amended).  The invoker tries the conventions in the fixed order
    target-only, target plus [timeout=10], target as the keyword [target],
    and moves to the next one exactly when the call before raised
    [TypeError].  When the body of the capability never raises [TypeError]
    itself, the capability is called under the first convention it accepts,
    its body runs exactly once and its outcome is the invoker's outcome;
    when it accepts none, the body never runs and the last [TypeError] is
    raised. *)
Theorem invoke_first_accepted_convention (f : capability) (url : string) :
  conventions_tried (snd (_call_tool_callable f url))
  = (if raised_type_error (fst (call f TargetOnly url)) then
       if raised_type_error (fst (call f TargetTimeout url))
       then ALL_CONVENTIONS else conventions_upto TargetTimeout
     else conventions_upto TargetOnly)
  /\ (body_never_type_error f url ->
      let (result, log) := _call_tool_callable f url in
      match first_accepted f url with
      | Some c =>
          f c url = Ran result
          /\ conventions_tried log = conventions_upto c
          /\ executions log = 1%nat
      | None =>
          (exists msg, f TargetNamed url = Rejected msg
                       /\ result = Raised (PyExn TypeError msg))
          /\ conventions_tried log = ALL_CONVENTIONS
          /\ executions log = 0%nat
      end).
Proof.
  split; [apply invoke_tries|].
  intros Hb.
  unfold _call_tool_callable, first_accepted, ALL_CONVENTIONS, accepts_b, call, find.
  invoke_case f TargetOnly url Hb; try (repeat split; assumption || reflexivity).
  invoke_case f TargetTimeout url Hb; try (repeat split; assumption || reflexivity).
  invoke_case f TargetNamed url Hb; try (repeat split; assumption || reflexivity).
  repeat split; eauto.
Qed.

Lemma invoke_first_accepted_convention_witness :
  body_never_type_error Examples.named_only_probe Examples.url
  /\ fst (_call_tool_callable Examples.named_only_probe Examples.url)
     = Returned Examples.healthy_result
  /\ executions (snd (_call_tool_callable Examples.named_only_probe Examples.url)) = 1%nat.
Proof.
  assert (Hb : body_never_type_error Examples.named_only_probe Examples.url).
  { intros c e. destruct c; simpl; intros H; inversion H. }
  split; [exact Hb|].
  pose proof (proj2 (invoke_first_accepted_convention
                       Examples.named_only_probe Examples.url) Hb) as H.
  destruct (_call_tool_callable Examples.named_only_probe Examples.url) as [result log].
  simpl in H. destruct H as [Hr [_ He]].
  split; [now inversion Hr | exact He].
Defined.

(** C9 as stated fails: a capability that accepts the target-only
    convention and whose body raises [TypeError] is called again under the
    second convention, so its body runs twice in one invocation. *)
Lemma invoke_reruns_body_on_type_error :
  accepts Examples.type_error_probe Examples.url TargetOnly
  /\ conventions_tried (snd (_call_tool_callable Examples.type_error_probe Examples.url))
     = ALL_CONVENTIONS
  /\ executions (snd (_call_tool_callable Examples.type_error_probe Examples.url)) = 2%nat.
Proof.
  split; [eexists; reflexivity | split; reflexivity].
Qed.

(* ================================================================== *)
(** * The blocked-response classifier *)
(* ================================================================== *)

Section Classifier.

Lemma scan_keywords_filter (keywords : list string) (lower_text : string)
      (acc : list string) :
  scan_keywords keywords lower_text acc =
  (acc ++ filter (fun k => PyString.contains k lower_text) keywords)%list.
Proof.
  revert acc; induction keywords as [|k keywords IH]; intros acc; simpl.
  - now rewrite List.app_nil_r.
  - rewrite IH. destruct (PyString.contains k lower_text); simpl.
    + now rewrite <- List.app_assoc.
    + reflexivity.
Qed.

(** The status test of the classifier is the specification's. *)
Lemma status_reasons_code (status : pyval) :
  (if Py.eq_int status 403 || Py.eq_int status 429
   then ([] ++ [("HTTP " ++ Py.str status)%string])%list else [])
  = spec_status_reasons status.
Proof.
  destruct status as [| b | z | s | l | d]; try reflexivity.
  - now destruct b.
  - simpl. destruct (Z.eqb_spec z 403) as [-> | _]; [reflexivity|].
    destruct (Z.eqb_spec z 429) as [-> | _]; reflexivity.
Qed.

Lemma keywords_lower (k : string) :
  In k BLOCK_KEYWORDS -> PyString.lower k = k.
Proof.
  unfold BLOCK_KEYWORDS. simpl.
  intros H. repeat (destruct H as [<- | H]; [reflexivity|]). contradiction.
Qed.

(** The classifier on a dictionary whose excerpt is text. *)
Lemma classify_dict (d : pydict) :
  snippet_is_text d ->
  classify_blocked_response (PyDict d) =
  Returned
    (match (spec_status_reasons (extract_status d)
            ++ spec_keyword_reasons (snippet_text d))%list with
     | [] => PyDict d
     | reasons => blocked_payload (supplied_or d "_meta" (PyDict [])) reasons
     end).
Proof.
  intros Htext. unfold classify_blocked_response.
  rewrite status_reasons_code.
  unfold snippet_is_text, snippet_text in *.
  assert (Hkw : (if Py.truthy (extract_snippet d)
                 then lower_text <- Py.lower (extract_snippet d) ;;
                      Returned (scan_keywords BLOCK_KEYWORDS lower_text
                                  (spec_status_reasons (extract_status d)))
                 else Returned (spec_status_reasons (extract_status d)))
                = Returned (spec_status_reasons (extract_status d)
                            ++ spec_keyword_reasons
                                 match extract_snippet d with
                                 | PyStr s => s
                                 | _ => EmptyString
                                 end)%list).
  { destruct (extract_snippet d) as [| b | z | s | l | d'];
      try (rewrite Htext; cbn; now rewrite List.app_nil_r).
    destruct (Py.truthy (PyStr s)) eqn:Ht.
    - cbn [bind Py.lower]. now rewrite scan_keywords_filter.
    - simpl in Ht. apply negb_false_iff, String.eqb_eq in Ht. subst s.
      cbn. now rewrite List.app_nil_r. }
  rewrite Hkw. cbn [bind].
  destruct (spec_status_reasons (extract_status d)
            ++ spec_keyword_reasons _)%list; reflexivity.
Qed.

(** A keyword is recorded exactly when it occurs in the excerpt up to
    case, whatever the other keywords and the status do. *)
Lemma keyword_recorded_iff (text k : string) :
  In k (spec_keyword_reasons text) <->
  In k BLOCK_KEYWORDS /\ occurs_ignoring_case k text.
Proof.
  unfold spec_keyword_reasons. rewrite filter_In. split.
  - intros [Hk Hc]. split; [exact Hk|].
    now apply StringFacts.contains_lower_iff; [apply keywords_lower|].
  - intros [Hk Hc]. split; [exact Hk|].
    now apply StringFacts.contains_lower_iff; [apply keywords_lower|].
Qed.

(** The classifier returns its argument or a blocked payload with at least
    one reason. *)
Lemma classify_cases (tool_result r : pyval) :
  classify_blocked_response tool_result = Returned r ->
  r = tool_result \/
  exists meta reason reasons, r = blocked_payload meta (reason :: reasons).
Proof.
  unfold classify_blocked_response.
  destruct tool_result as [| b | z | s | l | d];
    try (intros H; inversion H; now left).
  match goal with
  | |- context [bind ?m _] => destruct m as [reasons | e]
  end; cbn [bind]; [| discriminate].
  destruct reasons as [| reason reasons]; intros H; inversion H.
  - now left.
  - right. eauto.
Qed.

End Classifier.

(** C4 (amended).  On a dictionary whose excerpt is text or empty, the
    classifier records the status reason (HTTP 403 or HTTP 429) and then
    every keyword of the fixed list that occurs in the excerpt up to case,
    each decided on its own; with at least one reason the result is the
    blocked payload (severity Unknown, fixed description and fix, no
    references, the [_meta] of the result, all reasons), with none it is the
    result itself; a value that is not a dictionary is returned as it is;
    status 403 with the excerpt captcha gives exactly the reasons HTTP 403
    and captcha. *)
Theorem classify_records_every_reason :
  (forall d, snippet_is_text d ->
     classify_blocked_response (PyDict d) =
     Returned
       (match (spec_status_reasons (extract_status d)
               ++ spec_keyword_reasons (snippet_text d))%list with
        | [] => PyDict d
        | reasons => blocked_payload (supplied_or d "_meta" (PyDict [])) reasons
        end))
  /\ (forall status reason,
        In reason (spec_status_reasons status) <->
        (status = PyInt 403 /\ reason = "HTTP 403")
        \/ (status = PyInt 429 /\ reason = "HTTP 429"))
  /\ (forall text k,
        In k (spec_keyword_reasons text) <->
        In k BLOCK_KEYWORDS /\ occurs_ignoring_case k text)
  /\ (forall meta reasons,
        blocked_payload meta reasons =
        PyDict [ ("error", PyStr BLOCKED_ERROR);
                 ("severity", PyStr "Unknown");
                 ("description", PyStr BLOCKED_DESCRIPTION);
                 ("fix", PyStr BLOCKED_FIX);
                 ("references", PyList []);
                 ("_meta", meta);
                 ("blocked_reasons", PyList (map PyStr reasons)) ])
  /\ (forall tool_result,
        (forall d, tool_result <> PyDict d) ->
        classify_blocked_response tool_result = Returned tool_result)
  /\ classify_blocked_response
       (PyDict [("status_code", PyInt 403); ("text_snippet", PyStr "captcha")])
     = Returned (blocked_payload (PyDict []) ["HTTP 403"; "captcha"]).
Proof.
  split; [exact classify_dict|].
  split.
  { intros status reason. destruct status as [| b | z | s | l | d]; simpl;
      try (split; [contradiction | intros [[H _] | [H _]]; discriminate]).
    destruct (Z.eqb_spec z 403) as [-> | Hn].
    - simpl. split.
      + intros [<- | []]. now left.
      + intros [[_ ->] | [H _]]; [now left | discriminate].
    - destruct (Z.eqb_spec z 429) as [-> | Hn'].
      + simpl. split.
        * intros [<- | []]. now right.
        * intros [[H _] | [_ ->]]; [discriminate | now left].
      + simpl. split; [contradiction|].
        intros [[H _] | [H _]]; inversion H; contradiction. }
  split; [exact keyword_recorded_iff|].
  split; [reflexivity|].
  split; [| reflexivity].
  intros tool_result Hnd. destruct tool_result; try reflexivity.
  now elim (Hnd d).
Qed.

Lemma classify_records_every_reason_witness :
  snippet_is_text [("status_code", PyInt 429); ("body_snippet", PyStr "Access Denied by Cloudflare")]
  /\ classify_blocked_response
       (PyDict [("status_code", PyInt 429); ("body_snippet", PyStr "Access Denied by Cloudflare")])
     = Returned (blocked_payload (PyDict []) ["HTTP 429"; "cloudflare"; "access denied"]).
Proof.
  split; [exact I|].
  destruct classify_records_every_reason as [H _].
  rewrite H; [reflexivity | exact I].
Defined.

(** C4 as stated fails on a dictionary whose excerpt is not text: with
    status 403, a reason that fires, and a list as [body_snippet], the
    classifier returns neither the blocked payload nor the result: it
    raises [AttributeError]. *)
Lemma classify_raises_instead_of_blocking :
  let d := [("status_code", PyInt 403); ("body_snippet", PyList [PyStr "captcha"])] in
  spec_status_reasons (extract_status d) = ["HTTP 403"]
  /\ classify_blocked_response (PyDict d)
     = Raised (PyExn AttributeError "'list' object has no attribute 'lower'").
Proof. split; reflexivity. Qed.

(* ================================================================== *)
(** * The result normalizer *)
(* ================================================================== *)

Section Normalizer.

Lemma case_chars_keep_underscore (prev : bool) (c : ascii) :
  Ascii.eqb c "_" = false ->
  Ascii.eqb (if prev then PyString.lower_char c else PyString.upper_char c) "_" = false.
Proof.
  destruct prev; destruct c as [[] [] [] [] [] [] [] []];
    intros H; try reflexivity; exact H.
Qed.

Lemma title_from_no_underscore (prev : bool) (s : string) :
  PyString.contains "_" s = false ->
  PyString.contains "_" (PyString.title_from prev s) = false.
Proof.
  revert prev; induction s as [|c s IH]; intros prev; [reflexivity|].
  cbn [PyString.contains PyString.title_from PyString.starts_with].
  rewrite !andb_true_r, !orb_false_iff. intros [Hc Hs].
  rewrite Ascii.eqb_sym in Hc. split.
  - rewrite Ascii.eqb_sym. now apply case_chars_keep_underscore.
  - now apply IH.
Qed.

Lemma replace_removes_underscore (s : string) :
  PyString.contains "_" (PyString.replace_char "_" " " s) = false.
Proof.
  induction s as [|c s IH]; [reflexivity|].
  cbn [PyString.contains PyString.replace_char PyString.starts_with].
  rewrite andb_true_r, IH, orb_false_r.
  destruct (Ascii.eqb c "_") eqn:Hc; [reflexivity|].
  now rewrite Ascii.eqb_sym.
Qed.

(** The display name of a probe holds no underscore. *)
Lemma display_name_no_underscore (vuln : string) :
  PyString.contains "_" (display_name vuln) = false.
Proof.
  unfold display_name, PyString.title.
  apply title_from_no_underscore, replace_removes_underscore.
Qed.

(** The finding of a [{"error": message}] result. *)
Lemma normalize_error_result (vuln message : string) :
  normalize_item vuln (error_result message) = failure_finding vuln message.
Proof.
  unfold normalize_item, failure_finding, error_result.
  rewrite DictFacts.status_of_error_key by reflexivity. reflexivity.
Qed.

(** The finding of a blocked payload. *)
Lemma normalize_blocked_payload (vuln : string) (meta : pyval) (reasons : list string) :
  normalize_item vuln (blocked_payload meta reasons) =
  [ ("id", PyStr vuln);
    ("status", PyStr "error");
    ("name", PyStr (display_name vuln));
    ("severity", PyStr "Unknown");
    ("description", PyStr BLOCKED_DESCRIPTION);
    ("fix", PyStr BLOCKED_FIX);
    ("references", default_references (display_name vuln));
    ("details", blocked_payload meta reasons) ].
Proof.
  unfold normalize_item, blocked_payload.
  rewrite DictFacts.status_of_error_key by reflexivity. reflexivity.
Qed.

(** One finding per item, in order, carrying the item's key as its id. *)
Lemma finding_ids_normalize (raw : pydict) :
  finding_ids (normalize_results raw) = map (fun k => Some (PyStr k)) (Py.keys raw).
Proof.
  unfold finding_ids, normalize_results, Py.keys. rewrite !map_map.
  apply map_ext. now intros [k v].
Qed.

Lemma has_id_normalize_item (vuln k : string) (data : pyval) :
  has_id vuln (normalize_item k data) = String.eqb k vuln.
Proof. reflexivity. Qed.

Lemma finding_of_normalize (raw : pydict) (vuln : string) :
  finding_of (normalize_results raw) vuln =
  option_map (normalize_item vuln) (Py.lookup raw vuln).
Proof.
  unfold finding_of. induction raw as [|[k v] raw IH]; [reflexivity|].
  cbn [normalize_results map find fst snd Py.lookup].
  change (match field (normalize_item k v) "id" with
          | Some (PyStr s) => String.eqb s vuln
          | _ => false
          end) with (String.eqb k vuln).
  destruct (String.eqb_spec k vuln) as [-> | _]; [reflexivity | exact IH].
Qed.

Lemma entries_for_normalize (raw : pydict) (vuln : string) :
  entries_for (normalize_results raw) vuln =
  List.length (filter (String.eqb vuln) (Py.keys raw)).
Proof.
  unfold entries_for, normalize_results, Py.keys.
  induction raw as [|[k v] raw IH]; [reflexivity|].
  cbn [map filter fst snd].
  rewrite has_id_normalize_item, (String.eqb_sym vuln k).
  destruct (String.eqb k vuln); cbn [List.length]; now rewrite IH.
Qed.

End Normalizer.

(** C5 (amended).  The finding carries the id and, as details, the result.
    For a dictionary without an [error] key the name, severity, description,
    fix and references are the ones the result supplies, else the display
    name of the id (underscores turned into spaces, title-cased), Unknown, the
    two placeholder sentences and the three generic references.  For a
    dictionary with an [error] key the name is always the display name and
    the references always the three generic ones; the severity is the
    supplied one or Unknown, the description the supplied one or the value of
    [error], the fix the supplied one or the sentence Check backend service.
    For any other value all five are the defaults. *)
Theorem normalize_defaults_and_overrides (vuln : string) (data : pyval) :
  let r := normalize_item vuln data in
  let name := PyStr (display_name vuln) in
  let references := default_references (display_name vuln) in
  field r "id" = Some (PyStr vuln)
  /\ field r "details" = Some data
  /\ match data with
     | PyDict d =>
         if Py.has_key d "error" then
           field r "name" = Some name
           /\ field r "severity" = Some (supplied_or d "severity" (PyStr "Unknown"))
           /\ field r "description"
              = Some (supplied_or d "description" (supplied_or d "error" PyNone))
           /\ field r "fix" = Some (supplied_or d "fix" (PyStr "Check backend service"))
           /\ field r "references" = Some references
         else
           field r "name" = Some (supplied_or d "name" name)
           /\ field r "severity" = Some (supplied_or d "severity" (PyStr "Unknown"))
           /\ field r "description"
              = Some (supplied_or d "description" (PyStr "No description provided."))
           /\ field r "fix"
              = Some (supplied_or d "fix" (PyStr "No fix recommendation available."))
           /\ field r "references" = Some (supplied_or d "references" references)
     | _ =>
         field r "name" = Some name
         /\ field r "severity" = Some (PyStr "Unknown")
         /\ field r "description" = Some (PyStr "No description provided.")
         /\ field r "fix" = Some (PyStr "No fix recommendation available.")
         /\ field r "references" = Some references
     end
  /\ references = PyList [ PyStr ("OWASP " ++ display_name vuln ++ " Prevention");
                           PyStr "CWE Reference"; PyStr "NIST Guidelines" ]
  /\ PyString.contains "_" (display_name vuln) = false
  /\ display_name "sql_injection" = "Sql Injection".
Proof.
  cbv zeta. split; [reflexivity|]. split; [reflexivity|].
  split.
  { unfold normalize_item, fields_of.
    destruct data as [| b | z | s | l | d]; try (repeat split; reflexivity).
    destruct (Py.has_key d "error"); repeat split; reflexivity. }
  split; [reflexivity|].
  split; [apply display_name_no_underscore | reflexivity].
Qed.

(** C5 as stated fails on a failure payload: the name and the references it
    supplies are ignored, and the description and the fix it does not supply
    are the error text and Check backend service, not the two placeholders. *)
Lemma normalize_failure_payload_differs :
  let r := normalize_item "sql_injection" Examples.failure_with_fields in
  field r "name" = Some (PyStr "Sql Injection")
  /\ field r "references" = Some (default_references "Sql Injection")
  /\ field r "description" = Some (PyStr "boom")
  /\ field r "fix" = Some (PyStr "Check backend service").
Proof. repeat split; reflexivity. Qed.

(** C6 (amended).  A result the classifier replaces with a blocked payload
    is normalized to a finding of status error, the status of a probe
    failure, with severity Unknown, the fixed blocked description and fix and
    the three generic references; what tells it from a probe failure is the
    list of reasons, never empty, kept in its details. *)
Theorem blocked_finding_has_error_status (vuln : string) (tool_result r : pyval) :
  classify_blocked_response tool_result = Returned r ->
  r <> tool_result ->
  let finding := normalize_item vuln r in
  field finding "status" = Some (PyStr "error")
  /\ field finding "severity" = Some (PyStr "Unknown")
  /\ field finding "description" = Some (PyStr BLOCKED_DESCRIPTION)
  /\ field finding "fix" = Some (PyStr BLOCKED_FIX)
  /\ field finding "references" = Some (default_references (display_name vuln))
  /\ exists meta reason reasons,
       field finding "details" = Some (blocked_payload meta (reason :: reasons)).
Proof.
  intros Hc Hne. destruct (classify_cases _ Hc) as [-> | [meta [reason [reasons ->]]]];
    [contradiction|].
  cbv zeta. rewrite normalize_blocked_payload.
  repeat split; try reflexivity. now exists meta, reason, reasons.
Qed.

Lemma blocked_finding_has_error_status_witness :
  classify_blocked_response Examples.forbidden_result
  = Returned (blocked_payload (PyDict []) ["HTTP 403"])
  /\ field (normalize_item "xss" (blocked_payload (PyDict []) ["HTTP 403"])) "status"
     = Some (PyStr "error").
Proof.
  split; [reflexivity|].
  refine (proj1 (@blocked_finding_has_error_status "xss" Examples.forbidden_result
                   (blocked_payload (PyDict []) ["HTTP 403"]) eq_refl _)).
  discriminate.
Defined.

(** C6 as stated fails: the finding of a blocked result carries the status
    error, the very status of the finding of a failed probe. *)
Lemma blocked_finding_status_is_failure_status :
  classify_blocked_response Examples.forbidden_result
  = Returned (blocked_payload (PyDict []) ["HTTP 403"])
  /\ field (normalize_item "xss" (blocked_payload (PyDict []) ["HTTP 403"])) "status"
     = Some (PyStr "error")
  /\ field (normalize_item "xss" (error_result "Tool run failed: boom")) "status"
     = Some (PyStr "error").
Proof. repeat split; reflexivity. Qed.

(* ================================================================== *)
(** * The risk computation *)
(* ================================================================== *)

Section Risk.

Lemma same_ignoring_case_eqb (a b : string) :
  same_ignoring_case a b = String.eqb (PyString.lower a) (PyString.lower b).
Proof.
  apply eq_true_iff_eq.
  now rewrite StringFacts.same_ignoring_case_spec, String.eqb_eq.
Qed.

(** On a finding whose severity is text the test of the code is the
    specification's. *)
Lemma counts_as_high_text (r : pydict) :
  severity_is_text r -> counts_as_high r = Returned (spec_is_high r).
Proof.
  unfold severity_is_text, counts_as_high, spec_is_high, field, Py.get.
  destruct (Py.lookup r "severity") as [[| b | z | s | l | d] |];
    try contradiction; intros _.
  - cbn [Py.lower bind]. now rewrite !same_ignoring_case_eqb.
  - reflexivity.
Qed.

(** A severity that is present and is not a string makes the test raise. *)
Lemma counts_as_high_raises (r : pydict) (v : pyval) :
  field r "severity" = Some v ->
  (forall s, v <> PyStr s) ->
  exists e, counts_as_high r = Raised e.
Proof.
  unfold counts_as_high, field, Py.get. intros -> Hv.
  destruct v as [| b | z | s | l | d]; try (eexists; reflexivity).
  now elim (Hv s).
Qed.

Lemma high_count_app (acc : Z) (a b : list pydict) :
  high_count_from acc (a ++ b) =
  (n <- high_count_from acc a ;; high_count_from n b).
Proof.
  revert acc; induction a as [|r a IH]; intros acc; [reflexivity|].
  cbn [app high_count_from].
  destruct (counts_as_high r) as [c | e]; [cbn [bind]; apply IH | reflexivity].
Qed.

Lemma high_count_text (acc : Z) (findings : list pydict) :
  Forall severity_is_text findings ->
  high_count_from acc findings = Returned (acc + spec_high_count findings).
Proof.
  intros H. revert acc. induction H as [|r findings Hr _ IH]; intros acc.
  - cbn. now rewrite Z.add_0_r.
  - cbn [high_count_from]. rewrite (counts_as_high_text _ Hr). cbn [bind].
    rewrite IH. unfold spec_high_count. cbn [filter].
    destruct (spec_is_high r); cbn [List.length]; f_equal; lia.
Qed.

Lemma risk_level_spec (n : Z) : risk_level_of n = spec_level n.
Proof. unfold risk_level_of, spec_level. now rewrite Z.geb_leb. Qed.

(** The count reads nothing of a finding but its severity. *)
Lemma counts_as_high_ext (r1 r2 : pydict) :
  field r1 "severity" = field r2 "severity" ->
  counts_as_high r1 = counts_as_high r2.
Proof. unfold counts_as_high, field, Py.get. now intros ->. Qed.

Lemma high_count_ext (acc : Z) (f1 f2 : list pydict) :
  severities f1 = severities f2 ->
  high_count_from acc f1 = high_count_from acc f2.
Proof.
  revert acc f2; induction f1 as [|r1 f1 IH]; intros acc [|r2 f2] H;
    try discriminate; [reflexivity|].
  injection H as Hr Hf. cbn [high_count_from].
  rewrite (counts_as_high_ext _ _ Hr).
  destruct (counts_as_high r2); cbn [bind]; [now apply IH | reflexivity].
Qed.

End Risk.

(** C3 (amended).  On findings whose severity is a string or absent, the
    score is the smaller of 100 and ten times the number of findings whose
    severity is, up to case, critical or high; the level is High from three
    such findings on, Low for none, Medium otherwise.  Severities High, High,
    Critical, Low give score 30 and level High; with no such finding the
    score is 0 and the level Low. *)
Theorem risk_is_ten_per_high_finding (findings : list pydict) :
  Forall severity_is_text findings ->
  compute_risk findings
  = (Z.min 100 (spec_high_count findings * 10), spec_level (spec_high_count findings))
  /\ (spec_high_count findings = 0 -> compute_risk findings = (0, "Low"))
  /\ compute_risk (map Examples.finding
                     [PyStr "High"; PyStr "High"; PyStr "Critical"; PyStr "Low"])
     = (30, "High").
Proof.
  intros H.
  assert (Heq : compute_risk findings
                = (Z.min 100 (spec_high_count findings * 10),
                   spec_level (spec_high_count findings))).
  { unfold compute_risk. rewrite (high_count_text 0 H), Z.add_0_l.
    now rewrite risk_level_spec. }
  split; [exact Heq|]. split; [| reflexivity].
  intros H0. now rewrite Heq, H0.
Qed.

Lemma risk_is_ten_per_high_finding_witness :
  Forall severity_is_text
    (map Examples.finding [PyStr "HIGH"; PyStr "critical"; PyStr "Medium"])
  /\ compute_risk
       (map Examples.finding [PyStr "HIGH"; PyStr "critical"; PyStr "Medium"])
     = (20, "Medium").
Proof.
  assert (H : Forall severity_is_text
                (map Examples.finding [PyStr "HIGH"; PyStr "critical"; PyStr "Medium"])).
  { repeat constructor. }
  split; [exact H|].
  exact (proj1 (risk_is_ten_per_high_finding H)).
Defined.

(** C3 as stated fails on a list of normalized findings in which one
    severity is not a string (a probe that reports the number 3): beside
    three High findings the claimed formula gives score 30 and level High,
    the code gives score 0 and level Unknown. *)
Lemma risk_formula_fails_on_numeric_severity :
  let findings :=
    normalize_results
      [ ("xss", PyDict [("severity", PyInt 3)]);
        ("cors", PyDict [("severity", PyStr "High")]);
        ("ssl_tls", PyDict [("severity", PyStr "High")]);
        ("http_headers", PyDict [("severity", PyStr "High")]) ] in
  compute_risk findings = (0, "Unknown")
  /\ (Z.min 100 (spec_high_count findings * 10), spec_level (spec_high_count findings))
     = (30, "High").
Proof. split; reflexivity. Qed.

(** C7 (amended).  The risk computation always yields a score and a level.
    A finding without a severity field, or whose severity is a string other
    than critical or high up to case, adds nothing, the other findings being
    counted as without it.  A finding whose severity is present and is not a
    string makes the whole computation fall back to score 0 and level
    Unknown, whatever the other findings are. *)
Theorem risk_ignores_or_falls_back (before after : list pydict) (r : pydict) :
  (severity_is_text r -> spec_is_high r = false ->
   compute_risk (before ++ r :: after) = compute_risk (before ++ after))
  /\ (forall v, field r "severity" = Some v -> (forall s, v <> PyStr s) ->
      compute_risk (before ++ r :: after) = (0, "Unknown")).
Proof.
  unfold compute_risk. split.
  - intros Ht Hh. rewrite !high_count_app.
    destruct (high_count_from 0 before) as [n | e]; [| reflexivity].
    cbn [bind high_count_from]. rewrite (counts_as_high_text _ Ht), Hh. reflexivity.
  - intros v Hv Hns. rewrite high_count_app.
    destruct (high_count_from 0 before) as [n | e]; [| reflexivity].
    cbn [bind high_count_from].
    destruct (counts_as_high_raises _ Hv Hns) as [e ->]. reflexivity.
Qed.

Lemma risk_ignores_or_falls_back_witness :
  compute_risk (map Examples.finding [PyStr "High"; PyStr "info"; PyStr "High"])
  = compute_risk (map Examples.finding [PyStr "High"; PyStr "High"])
  /\ compute_risk (map Examples.finding [PyStr "High"; PyInt 5; PyStr "High"])
     = (0, "Unknown").
Proof.
  split.
  - refine (proj1 (risk_ignores_or_falls_back [Examples.finding (PyStr "High")]
                     [Examples.finding (PyStr "High")]
                     (Examples.finding (PyStr "info"))) I eq_refl).
  - refine (proj2 (risk_ignores_or_falls_back [Examples.finding (PyStr "High")]
                     [Examples.finding (PyStr "High")]
                     (Examples.finding (PyInt 5))) (PyInt 5) eq_refl _).
    intros s; discriminate.
Defined.

(** C7 as stated fails: with one severity that is not a string ([None]
    from a probe) beside three High findings, the three are not counted:
    the score is 0 and the level Unknown, not 30 and High. *)
Lemma risk_not_counted_after_bad_severity :
  compute_risk
    (normalize_results
       [ ("xss", PyDict [("severity", PyNone)]);
         ("cors", PyDict [("severity", PyStr "High")]);
         ("ssl_tls", PyDict [("severity", PyStr "High")]);
         ("http_headers", PyDict [("severity", PyStr "High")]) ])
  = (0, "Unknown")
  /\ compute_risk
       (normalize_results
          [ ("cors", PyDict [("severity", PyStr "High")]);
            ("ssl_tls", PyDict [("severity", PyStr "High")]);
            ("http_headers", PyDict [("severity", PyStr "High")]) ])
     = (30, "High").
Proof. split; reflexivity. Qed.

(** C8.  The score and the level are a function of the severities of the
    findings alone: two lists of findings with the same severities, in
    particular the same list twice, give the same score and level. *)
Theorem risk_depends_on_severities_only (findings1 findings2 : list pydict) :
  severities findings1 = severities findings2 ->
  compute_risk findings1 = compute_risk findings2.
Proof.
  intros H. unfold compute_risk. now rewrite (high_count_ext 0 _ _ H).
Qed.

Lemma risk_depends_on_severities_only_witness :
  compute_risk [ Examples.finding (PyStr "High") ]
  = compute_risk [ [("severity", PyStr "High"); ("name", PyStr "Other")] ].
Proof.
  apply risk_depends_on_severities_only. reflexivity.
Defined.

(* ================================================================== *)
(** * The dispatcher *)
(* ================================================================== *)

Section Dispatcher.

Variable env : environment.
Variable url : string.

(** A task that returns, returns its own id. *)
Lemma run_tool_id (v k : string) (r : pyval) :
  task env url v = Returned (k, r) -> k = v.
Proof.
  unfold task, run_tool_async.
  destruct (TOOLS_get v) as [path|]; [| intros H; now inversion H].
  destruct (String.eqb path EmptyString); [intros H; now inversion H|].
  destruct (env path) as [e | m]; [intros H; now inversion H|].
  destruct (find_callable m ENTRY_NAMES) as [f|]; [| intros H; now inversion H].
  destruct (_call_tool_callable f url) as [[res | e] log]; cbn; [| discriminate].
  destruct (classify_blocked_response res); cbn; intros H; now inversion H.
Qed.


(** The task of a capability that raises on every call raises. *)
Lemma run_tool_raises (v : string) (f : capability) :
  resolve env v = Some f ->
  raises_on_every_call f url ->
  exists e, task env url v = Raised e.
Proof.
  unfold resolve, task, run_tool_async.
  destruct (TOOLS_get v) as [path|]; [| discriminate].
  destruct (String.eqb path EmptyString); [discriminate|].
  destruct (env path) as [e | m]; [discriminate|].
  intros -> Hr. destruct (invoke_raises Hr) as [e He].
  destruct (_call_tool_callable f url) as [res log]. simpl in He. subst res.
  now exists e.
Qed.

Lemma gather_inl (A : Type) (tasks : list (outcome A)) (done : list A) :
  gather tasks = inl done -> tasks = map Returned done.
Proof.
  revert done; induction tasks as [|[a | e] tasks IH]; intros done; simpl.
  - intros H; now inversion H.
  - destruct (gather tasks) as [d | excs]; [| discriminate].
    intros H; inversion H. now rewrite (IH d eq_refl).
  - destruct (gather tasks); discriminate.
Qed.

Lemma gather_inr (A : Type) (tasks : list (outcome A)) (excs : list pyexn) :
  gather tasks = inr excs ->
  excs <> [] /\ forall e, In e excs <-> In (Raised e) tasks.
Proof.
  revert excs; induction tasks as [|[a | e] tasks IH]; intros excs; simpl.
  - discriminate.
  - destruct (gather tasks) as [d | excs']; [discriminate|].
    intros H; inversion H; subst. destruct (IH _ eq_refl) as [Hne Hin].
    split; [exact Hne|]. intros e. rewrite Hin.
    split; [now right | intros [H0 | H0]; [discriminate | exact H0]].
  - destruct (gather tasks) as [d | excs'] eqn:Hg; intros H; inversion H; subst.
    + split; [discriminate|]. intros e'. simpl. split.
      * intros [<- | []]. now left.
      * intros [H0 | H0]; [inversion H0; now left|].
        apply gather_inl in Hg. rewrite Hg in H0.
        apply in_map_iff in H0. destruct H0 as [? [? _]]. discriminate.
    + destruct (IH _ eq_refl) as [_ Hin].
      split; [discriminate|]. intros e'. simpl. rewrite Hin.
      split; (intros [H0 | H0]; [left; congruence | now right]).
Qed.

Lemma gather_raised (A : Type) (tasks : list (outcome A)) (e : pyexn) :
  In (Raised e) tasks -> exists excs, gather tasks = inr excs.
Proof.
  intros Hin. destruct (gather tasks) as [done | excs] eqn:Hg; [| now exists excs].
  apply gather_inl in Hg. rewrite Hg in Hin.
  apply in_map_iff in Hin. destruct Hin as [? [? _]]. discriminate.
Qed.

(** The results gathered carry the ids of the tasks, in order. *)
Lemma gather_ids (selected : list string) (completed : list (string * pyval)) :
  gather (map (task env url) selected) = inl completed -> map fst completed = selected.
Proof.
  revert completed; induction selected as [|v selected IH]; intros completed; simpl.
  - intros H; now inversion H.
  - destruct (task env url v) as [[k r] | e] eqn:Hv.
    + destruct (gather (map (task env url) selected)) as [d | excs]; [| discriminate].
      intros H; inversion H. simpl.
      now rewrite (IH d eq_refl), (run_tool_id _ Hv).
    + destruct (gather (map (task env url) selected)); discriminate.
Qed.

(** Whatever happens, the raw results are a comprehension over pairs whose
    keys are the dispatched ids, in order. *)
Lemma raw_results_pairs (selected : list string) (raw : pydict) :
  raw_results_of env url selected raw ->
  exists pairs, raw = Py.of_pairs pairs /\ map fst pairs = selected.
Proof.
  intros [raw' Hrun | excs e Hrun Hin].
  - unfold run_all_tools in Hrun.
    destruct (gather (map (task env url) selected)) as [completed | excs] eqn:Hg;
      inversion Hrun; subst.
    exists completed. split; [reflexivity | now apply gather_ids].
  - eexists. split; [reflexivity|].
    rewrite map_map. simpl. apply map_id.
Qed.

(** A dispatch always ends with raw results. *)
Lemma raw_results_total (selected : list string) :
  exists raw, raw_results_of env url selected raw.
Proof.
  destruct (run_all_tools env url selected) as [raw | excs] eqn:Hrun.
  - exists raw. now constructor.
  - assert (Hne : excs <> []).
    { unfold run_all_tools in Hrun.
      destruct (gather (map (task env url) selected))
        as [c | excs'] eqn:Hg; inversion Hrun; subst.
      now destruct (gather_inr _ Hg). }
    destruct excs as [|e excs]; [contradiction|].
    exists (tool_run_failed selected e).
    apply raw_failed with (excs := e :: excs); [exact Hrun | now left].
Qed.

Lemma report_total (selected : list string) :
  exists rep, report_of env url selected rep.
Proof.
  destruct (raw_results_total selected) as [raw Hraw].
  exists (build_report raw), raw. now split.
Qed.

(** One raising task makes [run_all_tools] raise. *)
Lemma run_all_tools_raises (selected : list string) (v : string) (e : pyexn) :
  In v selected -> task env url v = Raised e ->
  exists excs, run_all_tools env url selected = inr excs.
Proof.
  intros Hin Hv. unfold run_all_tools.
  destruct (@gather_raised _ (map (task env url) selected) e) as [excs ->].
  - rewrite <- Hv. now apply in_map.
  - now exists excs.
Qed.

(** When no task raises, [run_all_tools] returns. *)
Lemma run_all_tools_returns (selected : list string) :
  (forall v, In v selected -> exists r, task env url v = Returned r) ->
  exists raw, run_all_tools env url selected = inl raw.
Proof.
  intros Hall. unfold run_all_tools.
  destruct (gather (map (task env url) selected)) as [c | excs] eqn:Hg; [now eexists|].
  destruct (gather_inr _ Hg) as [Hne Hin].
  destruct excs as [|e excs]; [contradiction|].
  assert (He : In (Raised e) (map (task env url) selected)) by (apply Hin; now left).
  apply in_map_iff in He. destruct He as [v [Hv Hinv]].
  destruct (Hall v Hinv) as [r Hr]. congruence.
Qed.

End Dispatcher.

Section Reports.

Variable env : environment.
Variable url : string.

Lemma In_set (d : pydict) (k : string) (v : pyval) (kv : string * pyval) :
  In kv (Py.set d k v) -> In kv d \/ kv = (k, v).
Proof.
  induction d as [|[k0 v0] d IH]; simpl.
  - intros [<- | []]. now right.
  - destruct (String.eqb_spec k0 k) as [-> | _]; simpl.
    + intros [<- | H]; [now right | left; now right].
    + intros [<- | H]; [left; now left|].
      destruct (IH H) as [H' | H']; [left; now right | now right].
Qed.

Lemma In_fold (pairs : list (string * pyval)) (d : pydict) (kv : string * pyval) :
  In kv (fold_left Py.add_pair pairs d) -> In kv d \/ In kv pairs.
Proof.
  revert d; induction pairs as [|[k v] pairs IH]; intros d; simpl; [now left|].
  intros H. destruct (IH _ H) as [H' | H']; [| right; now right].
  destruct (In_set _ _ _ _ H') as [H'' | ->]; [now left | right; now left].
Qed.

(** Every item of a comprehension is one of its pairs. *)
Lemma In_of_pairs (pairs : list (string * pyval)) (kv : string * pyval) :
  In kv (Py.of_pairs pairs) -> In kv pairs.
Proof. intros H. destruct (In_fold _ _ _ H) as [[] | H']. exact H'. Qed.

Lemma count_distinct (l : list string) (v : string) :
  NoDup l ->
  List.length (filter (String.eqb v) l) = if in_dec string_dec v l then 1%nat else 0%nat.
Proof.
  induction 1 as [|x l Hx Hl IH]; [reflexivity|].
  cbn [filter]. destruct (String.eqb_spec v x) as [-> | Hne].
  - cbn [List.length]. rewrite IH.
    destruct (in_dec string_dec x l); [contradiction|].
    destruct (in_dec string_dec x (x :: l)) as [_ | Hn]; [reflexivity|].
    exfalso. apply Hn. now left.
  - rewrite IH. destruct (in_dec string_dec v l) as [Hin | Hin];
      destruct (in_dec string_dec v (x :: l)) as [Hin' | Hin']; try reflexivity.
    + exfalso. apply Hin'. now right.
    + exfalso. destruct Hin' as [-> | Hin']; [now apply Hne | contradiction].
Qed.

(** The findings of a report: as many as distinct dispatched ids, one for
    each of them and none for any other id. *)
Lemma report_entries (selected : list string) (rep : report) :
  report_of env url selected rep ->
  List.length (results rep) = List.length (nodup string_dec selected)
  /\ (forall v, In v selected -> entries_for (results rep) v = 1%nat)
  /\ (forall v, ~ In v selected -> entries_for (results rep) v = 0%nat).
Proof.
  intros [raw [Hraw ->]].
  destruct (raw_results_pairs Hraw) as [pairs [-> Hkeys]].
  cbn [results build_report].
  assert (Hcount : forall v,
             entries_for (normalize_results (Py.of_pairs pairs)) v =
             if in_dec string_dec v selected then 1%nat else 0%nat).
  { intros v. rewrite entries_for_normalize, count_distinct
      by apply DictFacts.NoDup_keys_of_pairs.
    destruct (in_dec string_dec v (Py.keys (Py.of_pairs pairs))) as [H | H];
      destruct (in_dec string_dec v selected) as [H' | H']; try reflexivity;
      exfalso; rewrite DictFacts.In_keys_of_pairs, Hkeys in H; contradiction. }
  split.
  - unfold normalize_results. rewrite length_map, DictFacts.length_of_pairs.
    now rewrite Hkeys.
  - split; intros v Hv; rewrite Hcount;
      destruct (in_dec string_dec v selected); reflexivity || contradiction.
Qed.

(** The report of a failed batch: every dispatched id has the finding of
    the fallback payload, and the risk is the one of no high finding. *)
Lemma failed_batch_report (selected : list string) (e : pyexn) :
  let rep := build_report (tool_run_failed selected e) in
  let message := "Tool run failed: " ++ str_of_exn e in
  (forall v, In v selected ->
             finding_of (results rep) v = Some (failure_finding v message))
  /\ risk_score rep = 0 /\ risk_level rep = "Low".
Proof.
  cbv zeta. cbn [results risk_score risk_level build_report].
  set (message := "Tool run failed: " ++ str_of_exn e).
  set (pairs := map (fun v => (v, error_result message)) selected).
  assert (Hvals : forall kv, In kv (tool_run_failed selected e) ->
                             snd kv = error_result message).
  { intros kv Hin. apply In_of_pairs, in_map_iff in Hin.
    destruct Hin as [v [<- _]]. reflexivity. }
  split.
  - intros v Hv. rewrite finding_of_normalize.
    unfold tool_run_failed. fold message. fold pairs.
    rewrite (@DictFacts.lookup_of_pairs pairs v (error_result message)).
    + cbn [option_map]. now rewrite normalize_error_result.
    + intros x Hx. apply in_map_iff in Hx. destruct Hx as [v' [Hx _]].
      now inversion Hx.
    + unfold pairs. rewrite map_map. simpl. now rewrite map_id.
  - assert (Hcount : forall acc,
               high_count_from acc (normalize_results (tool_run_failed selected e))
               = Returned acc).
    { generalize (tool_run_failed selected e) Hvals. clear.
      intros raw. induction raw as [|[k v] raw IH]; intros Hvals acc; [reflexivity|].
      assert (Hv : v = error_result message)
        by exact (Hvals (k, v) (or_introl eq_refl)).
      subst v. unfold normalize_results.
      cbn [map fst snd high_count_from].
      rewrite normalize_error_result.
      change (counts_as_high (failure_finding k message)) with (Returned (A:=bool) false).
      cbn [bind]. apply IH. intros kv Hkv. apply Hvals. now right. }
    unfold compute_risk. rewrite Hcount. now split.
Qed.

End Reports.

(** C10.  The findings of a report are keyed by id: a report holds as many
    findings as there are distinct dispatched ids, exactly one for each of
    them and none for another id, however often an id is requested; the ids
    dispatched are the requested ones when there are any. *)
Theorem duplicate_requests_collapse
        (env : environment) (url : string) (requested : list string) :
  (exists rep, scan_reports env url requested rep)
  /\ forall rep, scan_reports env url requested rep ->
       let selected := selected_vulns requested in
       List.length (results rep) = List.length (nodup string_dec selected)
       /\ (forall v, In v selected -> entries_for (results rep) v = 1%nat)
       /\ (forall v, ~ In v selected -> entries_for (results rep) v = 0%nat)
       /\ (requested <> [] -> selected = requested).
Proof.
  split; [apply report_total|].
  intros rep Hrep. cbv zeta.
  destruct (report_entries Hrep) as [Hlen [Hone Hnone]].
  repeat split; try assumption.
  destruct requested; [contradiction | reflexivity].
Qed.

Lemma duplicate_requests_collapse_witness :
  exists rep,
    scan_reports Examples.env Examples.url ["cors"; "bogus"; "cors"] rep
    /\ List.length (results rep) = 2%nat
    /\ entries_for (results rep) "cors" = 1%nat.
Proof.
  destruct (duplicate_requests_collapse Examples.env Examples.url ["cors"; "bogus"; "cors"])
    as [[rep Hrep] Hall].
  exists rep. split; [exact Hrep|].
  destruct (Hall rep Hrep) as [Hlen [Hone _]].
  split; [exact Hlen | apply Hone; now left].
Defined.

(** C1 (amended).  The invoker intercepts [TypeError] only, to fall back to
    the next convention; a capability that raises on every call makes the
    invoker raise, the exception passes through [run_tool_async] and
    [run_all_tools], and the coordinator answers it by replacing the result
    of every dispatched id by the payload Tool run failed.  The scan still
    ends with a report, in which every dispatched id, the faulting one and
    its siblings alike, has a well-formed finding of status error and
    severity Unknown; the score is 0 and the level Low. *)
Theorem probe_fault_fails_every_probe
        (env : environment) (url : string) (requested : list string)
        (bad : string) (f : capability) :
  In bad (selected_vulns requested) ->
  resolve env bad = Some f ->
  raises_on_every_call f url ->
  (exists e, fst (_call_tool_callable f url) = Raised e)
  /\ (exists e, task env url bad = Raised e)
  /\ (exists rep, scan_reports env url requested rep)
  /\ forall rep, scan_reports env url requested rep ->
       exists e,
         (forall v, In v (selected_vulns requested) ->
            finding_of (results rep) v
            = Some (failure_finding v ("Tool run failed: " ++ str_of_exn e)))
         /\ risk_score rep = 0 /\ risk_level rep = "Low".
Proof.
  intros Hin Hres Hraises.
  split; [now apply invoke_raises|].
  destruct (run_tool_raises env bad Hres Hraises) as [e0 He0].
  split; [now exists e0|].
  split; [apply report_total|].
  intros rep [raw [Hraw ->]].
  destruct (run_all_tools_raises env url _ _ Hin He0) as [excs Hexcs].
  destruct Hraw as [raw Hrun | excs' e Hrun _]; [congruence|].
  exists e. apply failed_batch_report.
Qed.

Lemma probe_fault_fails_every_probe_witness :
  exists rep,
    scan_reports Examples.env Examples.url ["xss"; "cors"] rep
    /\ exists e,
         finding_of (results rep) "cors"
         = Some (failure_finding "cors" ("Tool run failed: " ++ str_of_exn e)).
Proof.
  assert (Hr : raises_on_every_call Examples.raising_probe Examples.url)
    by (intros c; destruct c; exact I).
  destruct (@probe_fault_fails_every_probe Examples.env Examples.url ["xss"; "cors"]
              "xss" Examples.raising_probe (or_introl eq_refl) eq_refl Hr)
    as [_ [_ [[rep Hrep] Hall]]].
  exists rep. split; [exact Hrep|].
  destruct (Hall rep Hrep) as [e [Hfind _]].
  exists e. apply Hfind. right. now left.
Defined.

Section Siblings.

Variable env : environment.
Variable url : string.

(** Leaving out an id whose task returns leaves the other tasks, their
    results and their exceptions as they are. *)
Lemma gather_remove (selected : list string) (x : string) (a : string * pyval) :
  task env url x = Returned a ->
  gather (map (task env url) (remove string_dec x selected)) =
  match gather (map (task env url) selected) with
  | inl completed => inl (filter (other_than x) completed)
  | inr excs => inr excs
  end.
Proof.
  intros Hx. induction selected as [|v selected IH]; [reflexivity|].
  cbn [remove]. destruct (string_dec x v) as [<- | Hne].
  - cbn [map gather]. rewrite Hx, IH.
    destruct (gather (map (task env url) selected)) as [done | excs]; [| reflexivity].
    cbn [filter]. destruct a as [k r]. rewrite (run_tool_id _ _ _ Hx).
    unfold other_than. cbn [fst]. now rewrite String.eqb_refl.
  - cbn [map gather]. rewrite IH.
    destruct (task env url v) as [[k r] | e] eqn:Hv.
    + destruct (gather (map (task env url) selected)) as [done | excs]; [| reflexivity].
      cbn [filter]. rewrite (run_tool_id _ _ _ Hv).
      unfold other_than. cbn [fst].
      destruct (String.eqb_spec v x) as [-> | _]; [contradiction | reflexivity].
    + destruct (gather (map (task env url) selected)); reflexivity.
Qed.

Lemma NoDup_keys_filter (P : string * pyval -> bool) (d : pydict) :
  NoDup (map fst d) -> NoDup (map fst (filter P d)).
Proof.
  induction d as [|kv d IH]; intros H; [constructor|].
  inversion H as [|? ? Hnot Hd]; subst. cbn [filter].
  destruct (P kv); [| now apply IH].
  cbn [map]. constructor; [| now apply IH].
  intros Hin. apply Hnot. apply in_map_iff in Hin.
  destruct Hin as [p [Hp Hin]]. apply filter_In in Hin.
  apply in_map_iff. exists p. tauto.
Qed.

Lemma lookup_filter_other (d : pydict) (x v : string) :
  v <> x -> Py.lookup (filter (other_than x) d) v = Py.lookup d v.
Proof.
  intros Hne. induction d as [|[k r] d IH]; [reflexivity|].
  cbn [filter]. unfold other_than in *. cbn [fst].
  destruct (String.eqb_spec k x) as [-> | Hkx]; cbn [negb Py.lookup].
  - destruct (String.eqb_spec x v) as [-> | _]; [contradiction | exact IH].
  - now rewrite IH.
Qed.

Lemma lookup_not_in (d : pydict) (k : string) :
  ~ In k (Py.keys d) -> Py.lookup d k = None.
Proof.
  intros Hn. destruct (Py.lookup d k) eqn:Hl; [| reflexivity].
  exfalso. apply Hn, DictFacts.has_key_In. unfold Py.has_key. now rewrite Hl.
Qed.

(** The finding of an id in the report of a failed batch. *)
Lemma finding_of_failed (selected : list string) (e : pyexn) (v : string) :
  finding_of (results (build_report (tool_run_failed selected e))) v =
  if in_dec string_dec v selected
  then Some (failure_finding v ("Tool run failed: " ++ str_of_exn e))
  else None.
Proof.
  destruct (in_dec string_dec v selected) as [Hin | Hn].
  - now apply (failed_batch_report selected e).
  - cbn [results build_report]. rewrite finding_of_normalize, lookup_not_in; [reflexivity|].
    unfold tool_run_failed. rewrite DictFacts.In_keys_of_pairs, map_map. simpl.
    now rewrite map_id.
Qed.

(** The report of a dispatch, without an id whose task returns: the
    findings of the other ids are the same. *)
Lemma report_without (selected : list string) (x : string) (a : string * pyval)
      (rep : report) :
  NoDup selected ->
  task env url x = Returned a ->
  report_of env url selected rep ->
  exists rep',
    report_of env url (remove string_dec x selected) rep'
    /\ forall v, v <> x -> finding_of (results rep') v = finding_of (results rep) v.
Proof.
  intros Hnd Hx [raw [Hraw ->]].
  destruct Hraw as [raw Hrun | excs e Hrun Hin]; unfold run_all_tools in Hrun.
  - destruct (gather (map (task env url) selected)) as [completed | ?] eqn:Hg;
      inversion Hrun; subst raw.
    pose proof (gather_ids _ _ _ Hg) as Hkeys.
    exists (build_report (Py.of_pairs (filter (other_than x) completed))). split.
    + eexists. split; [| reflexivity]. constructor.
      unfold run_all_tools. now rewrite (@gather_remove selected x a Hx), Hg.
    + intros v Hv. cbn [results build_report]. rewrite !finding_of_normalize.
      rewrite !DictFacts.of_pairs_distinct.
      * now rewrite lookup_filter_other.
      * now rewrite Hkeys.
      * apply NoDup_keys_filter. now rewrite Hkeys.
  - destruct (gather (map (task env url) selected)) as [? | excs'] eqn:Hg;
      inversion Hrun; subst excs'.
    exists (build_report (tool_run_failed (remove string_dec x selected) e)). split.
    + eexists. split; [| reflexivity]. apply raw_failed with (excs := excs); [| exact Hin].
      unfold run_all_tools. now rewrite (@gather_remove selected x a Hx), Hg.
    + intros v Hv. rewrite !finding_of_failed.
      destruct (in_dec string_dec v selected) as [H1 | H1];
        destruct (in_dec string_dec v (remove string_dec x selected)) as [H2 | H2];
        try reflexivity; exfalso.
      * apply H2. now apply in_in_remove.
      * apply in_remove in H2. tauto.
Qed.


End Siblings.



(** C1 as stated fails: the exception of [Tools.XSS.run] leaves the invoker
    and the dispatcher, and the finding of the healthy sibling [cors], of
    status ok when scanned alone, becomes the Tool run failed finding. *)
Lemma faulting_probe_alters_sibling :
  raises_on_every_call Examples.raising_probe Examples.url
  /\ resolve Examples.env "xss" = Some Examples.raising_probe
  /\ fst (_call_tool_callable Examples.raising_probe Examples.url)
     = Raised (PyExn (OtherError "ValueError") "boom")
  /\ run_all_tools Examples.env Examples.url ["xss"; "cors"]
     = inr [PyExn (OtherError "ValueError") "boom"]
  /\ (forall rep, scan_reports Examples.env Examples.url ["cors"] rep ->
        finding_of (results rep) "cors"
        = Some (normalize_item "cors" Examples.healthy_result))
  /\ (forall rep, scan_reports Examples.env Examples.url ["xss"; "cors"] rep ->
        finding_of (results rep) "cors"
        = Some (failure_finding "cors" "Tool run failed: boom"))
  /\ field (normalize_item "cors" Examples.healthy_result) "status" = Some (PyStr "ok")
  /\ field (failure_finding "cors" "Tool run failed: boom") "status" = Some (PyStr "error").
Proof.
  split; [intros c; destruct c; exact I|].
  split; [reflexivity|]. split; [reflexivity|]. split; [reflexivity|].
  split; [| split; [| split; reflexivity]].
  - intros rep [raw [Hraw ->]].
    destruct Hraw as [raw Hrun | excs e Hrun He]; vm_compute in Hrun.
    + inversion Hrun; subst raw. reflexivity.
    + discriminate.
  - intros rep [raw [Hraw ->]].
    destruct Hraw as [raw Hrun | excs e Hrun He]; vm_compute in Hrun.
    + discriminate.
    + inversion Hrun; subst excs. destruct He as [<- | []]. reflexivity.
Qed.


(* ================================================================== *)
(** * Further properties of the orchestration core *)
(* ================================================================== *)

(** X1.  Classifying twice is classifying once: whatever the classifier
    returns, it returns unchanged when given it again. *)
Theorem classify_idempotent (tool_result r : pyval) :
  classify_blocked_response tool_result = Returned r ->
  classify_blocked_response r = Returned r.
Proof.
  intros H. destruct (classify_cases _ H) as [-> | [meta [reason [reasons ->]]]].
  - exact H.
  - reflexivity.
Qed.

Lemma classify_idempotent_witness :
  classify_blocked_response
    (blocked_payload (PyDict []) ["HTTP 403"])
  = Returned (blocked_payload (PyDict []) ["HTTP 403"]).
Proof.
  apply (@classify_idempotent Examples.forbidden_result). reflexivity.
Defined.

(** X2.  A dictionary with none of the keys [status_code],
    [response_status_code], [text_snippet], [body_snippet] (such as the
    error payload of a probe) is never blocked: it is returned as it is. *)
Theorem classify_passes_results_without_signals (d : pydict) :
  (forall k, In k CLASSIFIER_KEYS -> Py.has_key d k = false) ->
  classify_blocked_response (PyDict d) = Returned (PyDict d).
Proof.
  intros H.
  assert (Hget : forall k default, In k CLASSIFIER_KEYS -> Py.get d k default = default).
  { intros k default Hk. specialize (H k Hk). unfold Py.has_key, Py.get in *.
    now destruct (Py.lookup d k). }
  unfold classify_blocked_response, extract_status, extract_snippet.
  rewrite !Hget by (simpl; tauto). reflexivity.
Qed.

Lemma classify_passes_results_without_signals_witness :
  classify_blocked_response
    (PyDict [("error", PyStr "Request failed"); ("details", PyStr "timed out")])
  = Returned (PyDict [("error", PyStr "Request failed"); ("details", PyStr "timed out")]).
Proof.
  apply classify_passes_results_without_signals.
  intros k Hk. simpl in Hk.
  repeat (destruct Hk as [<- | Hk]; [reflexivity|]). contradiction.
Defined.

(** X3.  When the excerpt of a result is truthy and is not a string, the
    classifier raises [AttributeError] (the value has no [lower]). *)
Theorem classify_raises_on_non_text_snippet (d : pydict) :
  Py.truthy (extract_snippet d) = true ->
  (forall s, extract_snippet d <> PyStr s) ->
  classify_blocked_response (PyDict d)
  = Raised (PyExn AttributeError
              ("'" ++ Py.type_name (extract_snippet d)
                   ++ "' object has no attribute 'lower'")).
Proof.
  intros Ht Hns. unfold classify_blocked_response. rewrite Ht.
  destruct (extract_snippet d) as [| b | z | s | l | d']; try reflexivity.
  now elim (Hns s).
Qed.

Lemma classify_raises_on_non_text_snippet_witness :
  classify_blocked_response (PyDict [("text_snippet", PyInt 5)])
  = Raised (PyExn AttributeError "'int' object has no attribute 'lower'").
Proof.
  apply (@classify_raises_on_non_text_snippet [("text_snippet", PyInt 5)]).
  - reflexivity.
  - intros s; discriminate.
Defined.

(** X4.  The status of a finding is error exactly when the word error
    occurs, in any case, in the rendering [str(data)] of the result, and ok
    otherwise. *)
Theorem status_error_iff_rendering_mentions_error (data : pyval) :
  (result_status data = "error" <-> occurs_ignoring_case "error" (Py.str data))
  /\ (result_status data = "ok" <-> ~ occurs_ignoring_case "error" (Py.str data)).
Proof.
  pose proof (@StringFacts.contains_lower_iff "error" (Py.str data) eq_refl) as Hiff.
  unfold result_status.
  destruct (PyString.contains "error" (PyString.lower (Py.str data))); cbn [negb].
  - split; split; try discriminate.
    + intros _. now apply Hiff.
    + reflexivity.
    + intros Hn. elim Hn. now apply Hiff.
  - split; split; try discriminate; try reflexivity.
    + intros Ho. apply Hiff in Ho. discriminate.
    + intros _ Ho. apply Hiff in Ho. discriminate.
Qed.

(** X5.  Normalization loses nothing of the raw results: the ids and the
    details of the findings, in order, are the keys and the values of the
    raw results. *)
Theorem normalize_keeps_raw_results (raw : pydict) :
  map finding_item (normalize_results raw) = map raw_item raw
  /\ List.length (normalize_results raw) = List.length raw.
Proof.
  unfold normalize_results. split.
  - rewrite map_map. apply map_ext. now intros [k v].
  - apply length_map.
Qed.

Section RiskExtras.

Lemma high_count_grows (findings : list pydict) (acc n : Z) :
  high_count_from acc findings = Returned n -> acc <= n.
Proof.
  revert acc; induction findings as [|r findings IH]; intros acc; cbn [high_count_from].
  - intros H; inversion H; lia.
  - destruct (counts_as_high r) as [b | e]; cbn [bind]; [| discriminate].
    intros H. apply IH in H. destruct b; lia.
Qed.

Lemma same_count_refl (a : outcome Z) : same_count a a.
Proof. now destruct a. Qed.

Lemma same_count_trans (a b c : outcome Z) :
  same_count a b -> same_count b c -> same_count a c.
Proof. destruct a, b, c; simpl; congruence || tauto. Qed.

Lemma high_count_raises_from (findings : list pydict) (acc acc' : Z) (e : pyexn) :
  high_count_from acc findings = Raised e ->
  high_count_from acc' findings = Raised e.
Proof.
  revert acc acc'; induction findings as [|r findings IH]; intros acc acc';
    cbn [high_count_from]; [discriminate|].
  destruct (counts_as_high r) as [b | e']; cbn [bind]; [| trivial].
  apply IH.
Qed.

Lemma high_count_permutation (f1 f2 : list pydict) :
  Permutation f1 f2 ->
  forall acc, same_count (high_count_from acc f1) (high_count_from acc f2).
Proof.
  induction 1 as [| r l l' _ IH | r1 r2 l | l l' l'' _ IH1 _ IH2]; intros acc.
  - apply same_count_refl.
  - cbn [high_count_from].
    destruct (counts_as_high r) as [b | e]; cbn [bind]; [apply IH | exact I].
  - cbn [high_count_from].
    destruct (counts_as_high r1) as [b1 | e1], (counts_as_high r2) as [b2 | e2];
      cbn [bind]; try exact I.
    replace (if b1 then (if b2 then acc + 1 else acc) + 1
             else if b2 then acc + 1 else acc)
      with (if b2 then (if b1 then acc + 1 else acc) + 1
            else if b1 then acc + 1 else acc)
      by (destruct b1, b2; reflexivity).
    apply same_count_refl.
  - eapply same_count_trans; [apply IH1 | apply IH2].
Qed.

End RiskExtras.

(** X6.  Whatever the findings, the score is a multiple of 10 between 0 and
    100 and the level is one of Low, Medium, High, Unknown; the level is High
    exactly from score 30 on, Medium exactly for the scores 10 and 20, and
    Low or Unknown only with score 0. *)
Theorem risk_score_and_level_ranges (findings : list pydict) :
  let score := fst (compute_risk findings) in
  let level := snd (compute_risk findings) in
  0 <= score <= 100
  /\ (exists k, score = 10 * k)
  /\ In level RISK_LEVELS
  /\ (level = "High" <-> 30 <= score)
  /\ (level = "Medium" <-> 10 <= score < 30)
  /\ (level = "Low" \/ level = "Unknown" <-> score = 0).
Proof.
  cbv zeta. unfold compute_risk, RISK_LEVELS.
  destruct (high_count_from 0 findings) as [n | e] eqn:Hn; cbn [fst snd].
  - apply high_count_grows in Hn. unfold risk_level_of.
    destruct (Z.geb_spec n 3) as [H3 | H3]; [| destruct (Z.eqb_spec n 0) as [-> | H0]];
      (split; [lia | split; [| split; [simpl; tauto | split; [| split]]]]).
    + exists (Z.min 10 n). lia.
    + split; [intros _; lia | reflexivity].
    + split; [discriminate | lia].
    + split; [intros [H | H]; discriminate | lia].
    + now exists 0.
    + split; [discriminate | simpl; lia].
    + split; [discriminate | simpl; lia].
    + split; [reflexivity | intros _; now left].
    + exists n. lia.
    + split; [discriminate | lia].
    + split; [intros _; lia | reflexivity].
    + split; [intros [H | H]; discriminate | lia].
  - split; [lia | split; [now exists 0 | split; [simpl; tauto | split; [| split]]]].
    + split; [discriminate | lia].
    + split; [discriminate | lia].
    + split; [reflexivity | intros _; now right].
Qed.

(** X7.  The score and the level do not depend on the order of the
    findings. *)
Theorem risk_is_order_independent (findings1 findings2 : list pydict) :
  Permutation findings1 findings2 ->
  compute_risk findings1 = compute_risk findings2.
Proof.
  intros H. pose proof (high_count_permutation H 0) as Hc.
  unfold compute_risk.
  destruct (high_count_from 0 findings1), (high_count_from 0 findings2);
    simpl in Hc; try contradiction; [now subst | reflexivity].
Qed.

Lemma risk_is_order_independent_witness :
  compute_risk (map Examples.finding [PyStr "High"; PyStr "Low"; PyStr "critical"])
  = compute_risk (map Examples.finding [PyStr "Low"; PyStr "High"; PyStr "critical"]).
Proof.
  apply risk_is_order_independent. apply perm_swap.
Defined.

(** X8.  On findings whose severity is text, further findings never lower
    the score, and from ten critical or high findings on the score stays at
    100. *)
Theorem risk_score_grows_and_saturates (findings more : list pydict) :
  Forall severity_is_text findings ->
  Forall severity_is_text more ->
  fst (compute_risk findings) <= fst (compute_risk (findings ++ more))
  /\ (10 <= spec_high_count findings -> compute_risk findings = (100, "High")).
Proof.
  intros Hf Hm.
  assert (Hfm : Forall severity_is_text (findings ++ more))
    by (apply Forall_app; now split).
  unfold compute_risk.
  rewrite (high_count_text 0 Hf), (high_count_text 0 Hfm), !Z.add_0_l.
  cbn [fst]. split.
  - assert (spec_high_count findings <= spec_high_count (findings ++ more)).
    { unfold spec_high_count. rewrite filter_app, length_app. lia. }
    lia.
  - intros H10. unfold risk_level_of.
    destruct (Z.geb_spec (spec_high_count findings) 3); [| lia].
    f_equal. lia.
Qed.

Lemma risk_score_grows_and_saturates_witness :
  fst (compute_risk (map Examples.finding [PyStr "High"]))
  <= fst (compute_risk (map Examples.finding [PyStr "High"; PyStr "Critical"])).
Proof.
  refine (proj1 (@risk_score_grows_and_saturates
                   (map Examples.finding [PyStr "High"])
                   (map Examples.finding [PyStr "Critical"]) _ _));
    repeat constructor.
Defined.

(** X9.  A result the classifier replaced by a blocked payload adds
    nothing to the risk, whatever severity the probe had reported: the score
    and the level are those of the other findings. *)
Theorem blocked_result_adds_no_risk
        (vuln : string) (tool_result r : pyval) (before after : list pydict) :
  classify_blocked_response tool_result = Returned r ->
  r <> tool_result ->
  compute_risk (before ++ normalize_item vuln r :: after)
  = compute_risk (before ++ after).
Proof.
  intros Hc Hne.
  destruct (classify_cases _ Hc) as [-> | [meta [reason [reasons ->]]]];
    [contradiction|].
  unfold compute_risk. rewrite !high_count_app.
  destruct (high_count_from 0 before) as [n | e]; [| reflexivity].
  cbn [bind high_count_from]. rewrite normalize_blocked_payload. reflexivity.
Qed.

Lemma blocked_result_adds_no_risk_witness :
  compute_risk
    [ Examples.finding (PyStr "High");
      normalize_item "xss" (blocked_payload (PyDict []) ["HTTP 403"]) ]
  = (10, "Medium").
Proof.
  refine (@blocked_result_adds_no_risk "xss"
            (PyDict [("severity", PyStr "HIGH"); ("status_code", PyInt 403)])
            (blocked_payload (PyDict []) ["HTTP 403"])
            [Examples.finding (PyStr "High")] [] eq_refl _).
  discriminate.
Defined.

Section DispatchExtras.

Variable env : environment.
Variable url : string.

(** The task of an id that resolves to a capability: invoke, then
    classify. *)
Lemma run_tool_resolved (v : string) (f : capability) :
  resolve env v = Some f ->
  run_tool_async env v url =
  (result <- fst (_call_tool_callable f url) ;;
   result <- classify_blocked_response result ;;
   Returned (v, result),
   snd (_call_tool_callable f url)).
Proof.
  unfold resolve, run_tool_async.
  destruct (TOOLS_get v) as [path|]; [| discriminate].
  destruct (String.eqb path EmptyString); [discriminate|].
  destruct (env path) as [e | m]; [discriminate|].
  intros ->. now destruct (_call_tool_callable f url).
Qed.

(** In a batch that completes, the raw result of an id is the result of its
    task. *)
Lemma lookup_completed (selected : list string) (raw : pydict) (v : string) (r : pyval) :
  run_all_tools env url selected = inl raw ->
  In v selected ->
  task env url v = Returned (v, r) ->
  Py.lookup raw v = Some r.
Proof.
  intros Hrun Hin Hv. unfold run_all_tools in Hrun.
  destruct (gather (map (task env url) selected)) as [completed | ?] eqn:Hg;
    inversion Hrun; subst raw.
  pose proof (gather_ids _ _ _ Hg) as Hkeys.
  pose proof (gather_inl _ Hg) as Htasks.
  apply DictFacts.lookup_of_pairs.
  - intros x Hx.
    assert (Ht : In (Returned (v, x)) (map (task env url) selected))
      by (rewrite Htasks; now apply in_map).
    apply in_map_iff in Ht. destruct Ht as [v' [Hv' _]].
    pose proof (run_tool_id _ _ _ Hv') as ->. congruence.
  - now rewrite Hkeys.
Qed.

End DispatchExtras.

(** X10.  When no dispatched task raises, the finding of every id that
    resolves to a capability is the normalization of the classification of
    what the invoker returned for that capability. *)
Theorem completed_batch_runs_pipeline
        (env : environment) (url : string) (selected : list string) (rep : report) :
  (forall v, In v selected -> exists r, task env url v = Returned r) ->
  report_of env url selected rep ->
  forall v f, In v selected -> resolve env v = Some f ->
    exists result classified,
      fst (_call_tool_callable f url) = Returned result
      /\ classify_blocked_response result = Returned classified
      /\ finding_of (results rep) v = Some (normalize_item v classified).
Proof.
  intros Hall [raw [Hraw ->]] v f Hin Hres.
  destruct (run_all_tools_returns env url selected Hall) as [raw' Hrun].
  destruct Hraw as [raw Hrun' | excs e Hrun' _]; [| congruence].
  destruct (Hall v Hin) as [r Hr].
  pose proof Hr as Hr'. unfold task in Hr'.
  rewrite (run_tool_resolved env url v Hres) in Hr'. cbn [fst] in Hr'.
  destruct (fst (_call_tool_callable f url)) as [result | e] eqn:Hcall; [| discriminate].
  cbn [bind] in Hr'.
  destruct (classify_blocked_response result) as [classified | e] eqn:Hcls;
    [| discriminate].
  cbn [bind] in Hr'. inversion Hr'; subst r.
  exists result, classified. split; [reflexivity|]. split; [exact Hcls|].
  cbn [results build_report]. rewrite finding_of_normalize.
  now rewrite (@lookup_completed env url selected raw v classified Hrun' Hin Hr).
Qed.

Lemma completed_batch_runs_pipeline_witness :
  exists rep,
    report_of Examples.env Examples.url ["cors"] rep
    /\ finding_of (results rep) "cors"
       = Some (normalize_item "cors" Examples.healthy_result).
Proof.
  destruct (report_total Examples.env Examples.url ["cors"]) as [rep Hrep].
  exists rep. split; [exact Hrep|].
  assert (Hall : forall v, In v ["cors"] ->
                           exists r, task Examples.env Examples.url v = Returned r).
  { intros v [<- | []]. eexists. reflexivity. }
  destruct (@completed_batch_runs_pipeline Examples.env Examples.url ["cors"] rep
              Hall Hrep "cors" Examples.healthy_probe (or_introl eq_refl) eq_refl)
    as [result [classified [Hres [Hcls Hfind]]]].
  simpl in Hres. inversion Hres; subst result.
  inversion Hcls; subst classified. exact Hfind.
Defined.

(** X11.  Among distinct dispatched ids, a probe whose task returns (a
    success, a blocked result or an error result) does not affect the
    others: without it, every other id has the same finding. *)
Theorem returning_probe_leaves_siblings_unchanged
        (env : environment) (url : string) (selected : list string)
        (x : string) (a : string * pyval) (rep : report) :
  NoDup selected ->
  task env url x = Returned a ->
  report_of env url selected rep ->
  exists rep',
    report_of env url (remove string_dec x selected) rep'
    /\ forall v, v <> x -> finding_of (results rep') v = finding_of (results rep) v.
Proof. apply report_without. Qed.

Lemma returning_probe_leaves_siblings_unchanged_witness :
  exists rep rep',
    report_of Examples.env Examples.url ["cors"; "ssl_tls"] rep
    /\ report_of Examples.env Examples.url ["ssl_tls"] rep'
    /\ finding_of (results rep') "ssl_tls" = finding_of (results rep) "ssl_tls".
Proof.
  destruct (report_total Examples.env Examples.url ["cors"; "ssl_tls"]) as [rep Hrep].
  assert (Hnd : NoDup ["cors"; "ssl_tls"]).
  { constructor; [intros [H | []]; discriminate|].
    constructor; [intros [] | constructor]. }
  destruct (@returning_probe_leaves_siblings_unchanged Examples.env Examples.url
              ["cors"; "ssl_tls"] "cors" ("cors", Examples.healthy_result) rep
              Hnd eq_refl Hrep) as [rep' [Hrep' Hsame]].
  exists rep, rep'. split; [exact Hrep|].
  split; [exact Hrep' | apply Hsame; discriminate].
Defined.

(** X12.  An id that resolves to no capability (unknown to the registry,
    module that cannot be imported, module without entry point) makes no call
    and never raises: its task returns an error result under its own id. *)
Theorem unresolved_id_returns_error_result
        (env : environment) (url : string) (vuln : string) :
  resolve env vuln = None ->
  exists message,
    run_tool_async env vuln url = (Returned (vuln, error_result message), [])
    /\ normalize_item vuln (error_result message) = failure_finding vuln message.
Proof.
  unfold resolve, run_tool_async.
  destruct (TOOLS_get vuln) as [path|].
  - destruct (String.eqb path EmptyString).
    + intros _. eexists. split; [reflexivity | apply normalize_error_result].
    + destruct (env path) as [e | m].
      * intros _. eexists. split; [reflexivity | apply normalize_error_result].
      * intros ->. eexists. split; [reflexivity | apply normalize_error_result].
  - intros _. eexists. split; [reflexivity | apply normalize_error_result].
Qed.

Lemma unresolved_id_returns_error_result_witness :
  exists message,
    run_tool_async Examples.env "ssl_tls" Examples.url
    = (Returned ("ssl_tls", error_result message), []).
Proof.
  destruct (@unresolved_id_returns_error_result Examples.env Examples.url "ssl_tls" eq_refl)
    as [message [H _]].
  now exists message.
Defined.

(** X13.  A capability an id resolves to is called at least once and at
    most three times in a task, under pairwise different conventions taken
    in priority order. *)
Theorem resolved_capability_called_one_to_three_times
        (env : environment) (url : string) (vuln : string) (f : capability) :
  resolve env vuln = Some f ->
  let log := snd (run_tool_async env vuln url) in
  (1 <= List.length log <= 3)%nat
  /\ conventions_tried log = firstn (List.length log) ALL_CONVENTIONS
  /\ (executions log <= List.length log)%nat.
Proof.
  intros Hres. cbv zeta. rewrite (run_tool_resolved env url vuln Hres). cbn [snd].
  assert (Hlen : List.length (snd (_call_tool_callable f url))
                 = List.length (conventions_tried (snd (_call_tool_callable f url))))
    by (unfold conventions_tried; now rewrite length_map).
  split; [| split].
  - rewrite Hlen, invoke_tries.
    destruct (raised_type_error _); [destruct (raised_type_error _)|]; simpl; lia.
  - rewrite Hlen at 1. rewrite invoke_tries.
    destruct (raised_type_error _); [destruct (raised_type_error _)|]; reflexivity.
  - unfold executions. apply filter_length_le.
Qed.

Lemma resolved_capability_called_one_to_three_times_witness :
  (1 <= List.length (snd (run_tool_async Examples.env "xss" Examples.url)) <= 3)%nat.
Proof.
  exact (proj1 (@resolved_capability_called_one_to_three_times
                  Examples.env Examples.url "xss" Examples.raising_probe eq_refl)).
Defined.

(* ================================================================== *)
(** * Tools/outdates_software.py: versions *)
(* ================================================================== *)

Section Versions.
Import Outdated.

Lemma version_loop_spec (v t : list Z) (n i : nat) :
  (forall j, (j < i)%nat -> nth j v 0 = nth j t 0) ->
  (version_loop v t i n = true <->
   exists k, (i <= k < i + n)%nat
             /\ (forall j, (j < k)%nat -> nth j v 0 = nth j t 0)
             /\ nth k v 0 < nth k t 0).
Proof.
  revert i; induction n as [|n IH]; intros i Hpre; cbn [version_loop].
  - split; [discriminate | intros [k [Hk _]]; lia].
  - destruct (Z.ltb_spec (nth i v 0) (nth i t 0)) as [Hlt | Hge].
    + split; [intros _ | reflexivity].
      exists i. repeat split; [lia | lia | exact Hpre | exact Hlt].
    + destruct (Z.gtb_spec (nth i v 0) (nth i t 0)) as [Hgt | Hle].
      * split; [discriminate|]. intros [k [Hk [Heq Hk']]].
        destruct (Nat.eq_dec k i) as [-> | Hne]; [lia|].
        assert (Hi : nth i v 0 = nth i t 0) by (apply Heq; lia). lia.
      * assert (Hi : nth i v 0 = nth i t 0) by lia.
        rewrite IH.
        -- split; intros [k [Hk [Heq Hk']]]; exists k; repeat split; try assumption; try lia.
           destruct (Nat.eq_dec k i) as [-> | Hne]; lia.
        -- intros j Hj. destruct (Nat.eq_dec j i) as [-> | Hne]; [exact Hi|].
           apply Hpre. lia.
Qed.

(** The version is less exactly when, at the first index where the two
    tuples padded with zeros differ, its digit is the smaller one. *)
Lemma is_version_less_iff (v t : list Z) :
  _is_version_less v t = true <->
  exists k, (forall j, (j < k)%nat -> nth j v 0 = nth j t 0)
            /\ nth k v 0 < nth k t 0.
Proof.
  unfold _is_version_less. rewrite version_loop_spec by (intros j Hj; lia). split.
  - intros [k [_ H]]. now exists k.
  - intros [k [Heq Hk]]. exists k. repeat split; try assumption; [lia|].
    destruct (Nat.lt_ge_cases k (Nat.max (List.length v) (List.length t)))
      as [Hlt | Hge]; [lia|].
    rewrite (nth_overflow v), (nth_overflow t) in Hk by lia. lia.
Qed.

Lemma not_less_both_same (v t : list Z) :
  _is_version_less v t = false -> _is_version_less t v = false -> same_version v t.
Proof.
  intros Hvt Htv i. induction i as [i IH] using lt_wf_ind.
  destruct (Z.lt_trichotomy (nth i v 0) (nth i t 0)) as [Hlt | [Heq | Hgt]];
    [| exact Heq |].
  - assert (H : _is_version_less v t = true)
      by (apply is_version_less_iff; exists i; split; [exact IH | exact Hlt]).
    congruence.
  - assert (H : _is_version_less t v = true).
    { apply is_version_less_iff. exists i. split; [| lia].
      intros j Hj. symmetry. now apply IH. }
    congruence.
Qed.

Lemma same_version_not_less (v t : list Z) :
  same_version v t -> _is_version_less v t = false.
Proof.
  intros Hs. destruct (_is_version_less v t) eqn:H; [| reflexivity].
  apply is_version_less_iff in H. destruct H as [k [_ Hk]].
  rewrite (Hs k) in Hk. lia.
Qed.

Lemma less_same_left (v v' t : list Z) :
  same_version v v' -> _is_version_less v t = _is_version_less v' t.
Proof.
  intros Hs. apply eq_true_iff_eq. rewrite !is_version_less_iff.
  split; intros [k [Heq Hk]]; exists k; split.
  - intros j Hj. rewrite <- (Hs j). now apply Heq.
  - now rewrite <- (Hs k).
  - intros j Hj. rewrite (Hs j). now apply Heq.
  - now rewrite (Hs k).
Qed.

Lemma less_same_right (v t t' : list Z) :
  same_version t t' -> _is_version_less v t = _is_version_less v t'.
Proof.
  intros Hs. apply eq_true_iff_eq. rewrite !is_version_less_iff.
  split; intros [k [Heq Hk]]; exists k; split.
  - intros j Hj. rewrite <- (Hs j). now apply Heq.
  - now rewrite <- (Hs k).
  - intros j Hj. rewrite (Hs j). now apply Heq.
  - now rewrite (Hs k).
Qed.

Lemma same_version_padded (v : list Z) (n : nat) :
  same_version (v ++ repeat 0 n) v.
Proof.
  intros i. destruct (Nat.lt_ge_cases i (List.length v)) as [Hlt | Hge].
  - now rewrite app_nth1.
  - rewrite app_nth2 by exact Hge. rewrite (nth_overflow v) by exact Hge.
    apply nth_repeat.
Qed.

End Versions.

(** X14.  [_is_version_less] is a strict order: no version is less than
    itself, and less is transitive (hence never holds both ways). *)
Theorem version_less_is_strict_order (a b c : list Z) :
  Outdated._is_version_less a a = false
  /\ (Outdated._is_version_less a b = true ->
      Outdated._is_version_less b c = true ->
      Outdated._is_version_less a c = true)
  /\ (Outdated._is_version_less a b = true ->
      Outdated._is_version_less b a = false).
Proof.
  assert (Hirr : forall x, Outdated._is_version_less x x = false).
  { intros x. apply same_version_not_less. now intros i. }
  assert (Htrans : forall x y z,
             Outdated._is_version_less x y = true ->
             Outdated._is_version_less y z = true ->
             Outdated._is_version_less x z = true).
  { intros x y z Hxy Hyz. apply is_version_less_iff in Hxy, Hyz.
    destruct Hxy as [i [Hi Hxi]], Hyz as [k [Hk Hyk]].
    apply is_version_less_iff.
    destruct (Nat.lt_trichotomy i k) as [Hlt | [-> | Hgt]].
    - exists i. split.
      + intros j Hj. rewrite Hi by exact Hj. apply Hk. lia.
      + rewrite <- (Hk i Hlt). exact Hxi.
    - exists k. split; [| lia].
      intros j Hj. rewrite Hi by exact Hj. now apply Hk.
    - exists k. split.
      + intros j Hj. rewrite Hi by lia. now apply Hk.
      + rewrite (Hi k Hgt). exact Hyk. }
  split; [apply Hirr|]. split; [apply Htrans|].
  intros Hab. destruct (Outdated._is_version_less b a) eqn:Hba; [| reflexivity].
  rewrite <- (Hirr a). symmetry. now apply Htrans with (y := b).
Qed.

Lemma version_less_is_strict_order_witness :
  Outdated._is_version_less [2; 4; 49] [7; 4; 0] = true.
Proof.
  refine (proj1 (proj2 (version_less_is_strict_order [2; 4; 49] [2; 4; 50] [7; 4; 0])) _ _);
    reflexivity.
Defined.

(** X15.  Two versions of which neither is less than the other have the
    same digits once the shorter is padded with zeros, and conversely; so
    trailing zeros never change a comparison. *)
Theorem version_less_is_total_up_to_padding (v t : list Z) (n : nat) :
  (Outdated._is_version_less v t = false /\ Outdated._is_version_less t v = false
   <-> Outdated.same_version v t)
  /\ Outdated._is_version_less (v ++ repeat 0 n) t = Outdated._is_version_less v t
  /\ Outdated._is_version_less v (t ++ repeat 0 n) = Outdated._is_version_less v t.
Proof.
  split; [split|].
  - intros [H1 H2]. now apply not_less_both_same.
  - intros Hs. split; apply same_version_not_less; [exact Hs|].
    intros i. symmetry. apply Hs.
  - split.
    + apply less_same_left, same_version_padded.
    + apply less_same_right, same_version_padded.
Qed.

(** X16.  [_is_version_less] holds exactly when, at the first index at
    which the two tuples padded with zeros differ, the digit of the version
    is the smaller one. *)
Theorem version_less_iff_first_difference (v t : list Z) :
  Outdated._is_version_less v t = true <->
  exists k, (forall j, (j < k)%nat -> nth j v 0 = nth j t 0)
            /\ nth k v 0 < nth k t 0.
Proof. apply is_version_less_iff. Qed.

Section ParseVersion.
Import PyText.

Lemma string_of_uint_digits (u : Decimal.uint) :
  all_digits (NilEmpty.string_of_uint u) = true.
Proof. induction u; simpl; try reflexivity; exact IHu. Qed.

Lemma findall_run (p run rest : string) :
  all_digits p = true ->
  findall_digits_from run (p ++ rest) = findall_digits_from (run ++ p) rest.
Proof.
  revert run; induction p as [|c p IH]; intros run Hp; simpl.
  - now rewrite StringFacts.app_nil_r.
  - simpl in Hp. apply andb_true_iff in Hp. destruct Hp as [Hc Hp].
    rewrite Hc, IH by exact Hp.
    now rewrite StringFacts.app_assoc.
Qed.

Lemma findall_pieces (pieces : list string) :
  Forall digit_run pieces ->
  findall_digits (String.concat "." pieces) = pieces.
Proof.
  unfold findall_digits.
  induction 1 as [|p pieces [Hd Hne] Hrest IH]; [reflexivity|].
  destruct pieces as [|q pieces].
  - cbn [String.concat]. rewrite <- (StringFacts.app_nil_r p) at 1.
    rewrite findall_run by exact Hd. simpl.
    destruct p; [contradiction | reflexivity].
  - change (String.concat "." (p :: q :: pieces))
      with (p ++ String "." (String.concat "." (q :: pieces))).
    rewrite findall_run by exact Hd.
    cbn [findall_digits_from append]. change (is_digit ".") with false. cbv iota.
    rewrite IH. destruct p; [contradiction | reflexivity].
Qed.

Lemma of_int_digit_run (z : Z) :
  0 <= z -> digit_run (PyString.of_int z) /\ int_of_digits (PyString.of_int z) = z.
Proof.
  intros Hz. unfold PyString.of_int, int_of_digits, digit_run.
  destruct z as [|p|p]; [| | lia].
  - repeat split; [discriminate].
  - change (Z.to_int (Z.pos p)) with (Decimal.Pos (Pos.to_uint p)).
    cbn [NilZero.string_of_int].
    pose proof (DecimalPos.Unsigned.to_uint_nonnil p) as Hnn.
    assert (Hs : NilZero.string_of_uint (Pos.to_uint p)
                 = NilEmpty.string_of_uint (Pos.to_uint p)).
    { unfold NilZero.string_of_uint.
      destruct (Pos.to_uint p); [contradiction | reflexivity..]. }
    rewrite Hs. repeat split.
    + apply string_of_uint_digits.
    + destruct (Pos.to_uint p); simpl; try discriminate; try contradiction.
    + rewrite NilEmpty.usu. unfold Z.of_uint.
      now rewrite DecimalPos.Unsigned.of_to.
Qed.

End ParseVersion.

(** X17.  Parsing the rendering of a version gives the version back: for a
    tuple of non-negative numbers, [_parse_version_tuple] of its dotted form
    is the tuple, so a version written as its threshold is never reported as
    less than the threshold. *)
Theorem parse_version_of_rendered_tuple (t : list Z) :
  Forall (fun x => 0 <= x) t ->
  Outdated._parse_version_tuple (Outdated.render_version t) = t
  /\ Outdated._is_version_less
       (Outdated._parse_version_tuple (Outdated.render_version t)) t = false.
Proof.
  intros Ht.
  assert (Hparse : Outdated._parse_version_tuple (Outdated.render_version t) = t).
  { unfold Outdated._parse_version_tuple, Outdated.render_version.
    rewrite findall_pieces.
    - rewrite map_map. rewrite <- (map_id t) at 2. apply map_ext_in.
      intros z Hz. apply of_int_digit_run. now apply (proj1 (Forall_forall _ _) Ht).
    - apply Forall_forall. intros p Hp. apply in_map_iff in Hp.
      destruct Hp as [z [<- Hz]]. apply of_int_digit_run.
      now apply (proj1 (Forall_forall _ _) Ht). }
  split; [exact Hparse|].
  rewrite Hparse. apply same_version_not_less. now intros i.
Qed.

Lemma parse_version_of_rendered_tuple_witness :
  Outdated._parse_version_tuple (Outdated.render_version [2; 4; 50]) = [2; 4; 50].
Proof.
  refine (proj1 (@parse_version_of_rendered_tuple [2; 4; 50] _)).
  repeat constructor; lia.
Defined.

(* ================================================================== *)
(** * Tools/CORS_detection.py, Missing_Cookies.py, ClickJacking_Tester.py *)
(* ================================================================== *)

Section CorsFacts.
Import Cors.

Lemma extract_is_loop (hs : headers) (name : string) :
  _extract_header_ci hs name = header_loop hs name.
Proof. now destruct hs. Qed.

Lemma header_loop_none (hs : headers) (name : string) :
  header_loop hs name = None <->
  forall k v, In (k, v) hs -> same_ignoring_case k name = false.
Proof.
  induction hs as [|[k0 v0] hs IH]; cbn [header_loop].
  - split; [intros _ k v [] | reflexivity].
  - rewrite <- same_ignoring_case_eqb.
    destruct (same_ignoring_case k0 name) eqn:Hk.
    + split; [discriminate|]. intros H. specialize (H k0 v0 (or_introl eq_refl)). congruence.
    + rewrite IH. split.
      * intros H k v [Heq | Hin]; [inversion Heq; now subst | now apply (H k v)].
      * intros H k v Hin. apply (H k v). now right.
Qed.

Lemma header_loop_first (pre post : headers) (k v name : string) :
  (forall k' v', In (k', v') pre -> same_ignoring_case k' name = false) ->
  same_ignoring_case k name = true ->
  header_loop (pre ++ (k, v) :: post)%list name = Some v.
Proof.
  intros Hpre Hk. induction pre as [|[k0 v0] pre IH]; cbn [app header_loop].
  - now rewrite <- same_ignoring_case_eqb, Hk.
  - rewrite <- same_ignoring_case_eqb, (Hpre k0 v0 (or_introl eq_refl)).
    apply IH. intros k' v' Hin. apply (Hpre k' v'). now right.
Qed.

End CorsFacts.

(** X18.  [_extract_header_ci] looks a header up without regard to case:
    two names that differ only in case give the same answer; the answer is
    the value of the first header whose name matches up to case, and [None]
    exactly when no header name matches. *)
Theorem extract_header_ignores_case (hs : Cors.headers) (name : string) :
  (forall name', same_ignoring_case name name' = true ->
                 Cors._extract_header_ci hs name' = Cors._extract_header_ci hs name)
  /\ (Cors._extract_header_ci hs name = None <->
      forall k v, In (k, v) hs -> same_ignoring_case k name = false)
  /\ (forall pre k v post,
        hs = (pre ++ (k, v) :: post)%list ->
        (forall k' v', In (k', v') pre -> same_ignoring_case k' name = false) ->
        same_ignoring_case k name = true ->
        Cors._extract_header_ci hs name = Some v).
Proof.
  rewrite !extract_is_loop. split; [| split].
  - intros name' Hn. rewrite extract_is_loop.
    apply StringFacts.same_ignoring_case_spec in Hn.
    induction hs as [|[k v] hs IH]; cbn [Cors.header_loop]; [reflexivity|].
    now rewrite Hn, IH.
  - apply header_loop_none.
  - intros pre k v post -> Hpre Hk. now apply header_loop_first.
Qed.

Lemma extract_header_ignores_case_witness :
  Cors._extract_header_ci
    [("Content-Type", "text/html"); ("access-control-allow-origin", "*")]
    "Access-Control-Allow-Origin"
  = Some "*".
Proof.
  refine (proj2 (proj2 (extract_header_ignores_case
                          [("Content-Type", "text/html");
                           ("access-control-allow-origin", "*")]
                          "Access-Control-Allow-Origin"))
            [("Content-Type", "text/html")] "access-control-allow-origin" "*" []
            eq_refl _ eq_refl).
  intros k' v' [H | []]. now inversion H.
Defined.

(** X19.  The severity [check_cors] assigns: LOW exactly when no
    non-empty Access-Control-Allow-Origin is present, whatever the
    credentials header says; HIGH exactly when one is present and it is the
    wildcard, the reflected test origin, or credentials are allowed; MEDIUM
    in the remaining case. *)
Theorem cors_severity_table (acao acac : option string) :
  let severity := fst (Cors.assess acao acac) in
  (severity = "LOW" <-> Cors.present acao = None)
  /\ (severity = "HIGH" <->
      exists a, Cors.present acao = Some a
                /\ (PyText.strip a = "*" \/ PyText.strip a = Cors._TEST_ORIGIN
                    \/ Cors.allows_credentials acac = true))
  /\ (severity = "MEDIUM" <->
      exists a, Cors.present acao = Some a
                /\ PyText.strip a <> "*" /\ PyText.strip a <> Cors._TEST_ORIGIN
                /\ Cors.allows_credentials acac = false).
Proof.
  cbv zeta. unfold Cors.assess, Cors.assess_origin.
  destruct (Cors.present acao) as [a|].
  - destruct (String.eqb_spec (PyText.strip a) "*") as [Hw | Hw];
      [| destruct (String.eqb_spec (PyText.strip a) Cors._TEST_ORIGIN) as [Hr | Hr]];
      destruct (Cors.allows_credentials acac); cbn [fst String.eqb Ascii.eqb Bool.eqb];
      (split; [split; discriminate | split]);
      try (split; [intros _; exists a; tauto | reflexivity]);
      try (split; [discriminate | intros [a' [Ha Hc]]; inversion Ha; subst a'; tauto]);
      try (split; [discriminate | intros [a' [Ha [H1 [H2 H3]]]]; inversion Ha; subst a';
                                  congruence]).
    split; [discriminate|].
    intros [a' [Ha [H1 | [H1 | H1]]]]; inversion Ha; subst a';
      congruence || discriminate.
  - destruct (Cors.allows_credentials acac); cbn [fst];
      (split; [split; reflexivity | split; (split; [discriminate |])]);
      intros [a [Ha _]]; discriminate.
Qed.

Section CookieFacts.
Import Cookies.

Lemma contains_longer (short long hay : string) :
  PyString.contains short long = true ->
  PyString.contains long hay = true ->
  PyString.contains short hay = true.
Proof.
  rewrite !StringFacts.contains_spec. intros [a [b ->]] [a' [b' ->]].
  exists (a' ++ a), (b ++ b'). now rewrite !StringFacts.app_assoc.
Qed.

Lemma insecure_loop_nil_iff (raw_set : list string) :
  insecure_loop raw_set = [] <-> forall raw, In raw raw_set -> missing_flags raw = [].
Proof.
  induction raw_set as [|raw rest IH]; cbn [insecure_loop].
  - split; [intros _ raw [] | reflexivity].
  - destruct (missing_flags raw) as [|flag flags] eqn:Hf.
    + rewrite IH. split.
      * intros H r [<- | Hin]; [exact Hf | now apply H].
      * intros H r Hin. apply H. now right.
    + split; [discriminate|].
      intros H. specialize (H raw (or_introl eq_refl)). congruence.
Qed.

(** The severity, by what [load] does. *)
Lemma severity_by_load (load : string -> outcome unit) (cookies : option string)
      (get_all : option (list string)) :
  match given cookies with
  | None => severity load cookies get_all = Returned "LOW"
  | Some c =>
      match load c with
      | Raised e => severity load cookies get_all = Raised e
      | Returned _ =>
          exists s, severity load cookies get_all = Returned s
                    /\ (s = "LOW" <->
                        forall r, In r (raw_set_of get_all c) -> missing_flags r = [])
      end
  end.
Proof.
  unfold severity, insecure.
  destruct (given cookies) as [c|]; [| reflexivity].
  destruct (load c) as [u | e]; cbn [bind]; [| reflexivity].
  eexists. split; [reflexivity|].
  rewrite <- insecure_loop_nil_iff.
  destruct (insecure_loop (raw_set_of get_all c)); split; congruence || discriminate.
Qed.

End CookieFacts.

(** X20.  For one raw cookie the loop of [check_cookies] records no issue
    exactly when the words secure, httponly and samesite occur in it, in any
    case, and samesite=none does not; SameSite=None is recorded exactly when
    samesite=none occurs; at most three issues are recorded.  When
    [SimpleCookie.load] raises on the header, so does the function; when it
    returns, the severity is LOW exactly when no raw cookie has an issue;
    without a Set-Cookie header the severity is LOW. *)
Theorem cookie_issues_by_substring
        (raw : string) (load : string -> outcome unit)
        (cookies : option string) (get_all : option (list string)) :
  (Cookies.missing_flags raw = [] <->
   occurs_ignoring_case "secure" raw /\ occurs_ignoring_case "httponly" raw
   /\ occurs_ignoring_case "samesite" raw
   /\ ~ occurs_ignoring_case "samesite=none" raw)
  /\ (In "SameSite=None (risky)" (Cookies.missing_flags raw) <->
      occurs_ignoring_case "samesite=none" raw)
  /\ (List.length (Cookies.missing_flags raw) <= 3)%nat
  /\ match Cookies.given cookies with
     | None => Cookies.severity load cookies get_all = Returned "LOW"
     | Some c =>
         match load c with
         | Raised e => Cookies.severity load cookies get_all = Raised e
         | Returned _ =>
             exists s, Cookies.severity load cookies get_all = Returned s
                       /\ (s = "LOW" <->
                           forall r, In r (Cookies.raw_set_of get_all c) ->
                                     Cookies.missing_flags r = [])
         end
     end.
Proof.
  pose proof (@StringFacts.contains_lower_iff "secure" raw eq_refl) as Hsec.
  pose proof (@StringFacts.contains_lower_iff "httponly" raw eq_refl) as Hhttp.
  pose proof (@StringFacts.contains_lower_iff "samesite" raw eq_refl) as Hsame.
  pose proof (@StringFacts.contains_lower_iff "samesite=none" raw eq_refl) as Hnone.
  assert (Himp : PyString.contains "samesite=none" (PyString.lower raw) = true ->
                 PyString.contains "samesite" (PyString.lower raw) = true)
    by (apply contains_longer; reflexivity).
  pose proof (severity_by_load load cookies get_all) as Hsev.
  unfold Cookies.missing_flags.
  destruct (PyString.contains "secure" (PyString.lower raw)) eqn:E1;
    destruct (PyString.contains "httponly" (PyString.lower raw)) eqn:E2;
    destruct (PyString.contains "samesite" (PyString.lower raw)) eqn:E3;
    destruct (PyString.contains "samesite=none" (PyString.lower raw)) eqn:E4;
    try (specialize (Himp eq_refl); discriminate);
    cbn [negb app];
    (split; [| split; [| split; [simpl; lia | exact Hsev]]]);
    try (split; [discriminate | intros [H1 [H2 [H3 H4]]];
                 try (apply Hsec in H1; discriminate);
                 try (apply Hhttp in H2; discriminate);
                 try (apply Hsame in H3; discriminate);
                 try (elim H4; now apply Hnone)]);
    try (split; [intros _; repeat split;
                 try (now apply Hsec); try (now apply Hhttp); try (now apply Hsame);
                 intros H; apply Hnone in H; discriminate
                | reflexivity]);
    try (split; [simpl; intuition discriminate | intros H; apply Hnone in H; discriminate]);
    try (split; [intros _; now apply Hnone | simpl; tauto]).
Qed.

Section FrameAncestors.
Import Clickjacking.

(** The pattern matches at the start of [s] exactly when [s] starts with
    one of the two schemes followed by a character of the class. *)
Lemma origin_at_spec (s : string) :
  origin_at s = true <->
  exists scheme c rest,
    s = scheme ++ String c rest
    /\ (scheme = "http://" \/ scheme = "https://")
    /\ origin_char c = true.
Proof.
  split.
  - unfold origin_at.
    repeat match goal with
           | |- context [match ?x with _ => _ end] =>
               match type of x with
               | string => destruct x as [| ? ?]; try discriminate
               | ascii => destruct x as [[] [] [] [] [] [] [] []]; try discriminate
               end
           end;
      intros H;
      first [ exists "http://"; eexists; eexists; split; [reflexivity | split; [now left | exact H]]
            | exists "https://"; eexists; eexists; split; [reflexivity | split; [now right | exact H]] ].
  - intros [scheme [c [rest [-> [[-> | ->] Hc]]]]]; exact Hc.
Qed.

Lemma has_origin_spec (s : string) :
  has_origin s = true <-> exists a rest, s = a ++ rest /\ origin_at rest = true.
Proof.
  induction s as [|c s IH]; cbn [has_origin].
  - split.
    + rewrite orb_false_r. intros H. now exists EmptyString, EmptyString.
    + intros [a [rest [Heq H]]]. destruct a; [| discriminate].
      simpl in Heq. subst rest. discriminate.
  - rewrite orb_true_iff, IH. split.
    + intros [H | [a [rest [-> H]]]].
      * now exists EmptyString, (String c s).
      * now exists (String c a), rest.
    + intros [a [rest [Heq H]]]. destruct a as [|x a]; simpl in Heq.
      * left. now subst rest.
      * right. injection Heq as _ ->. now exists a, rest.
Qed.

End FrameAncestors.

(** X21.  A frame-ancestors value counts as safe exactly when it holds
    the keyword 'none' or 'self' in any case, or somewhere the text http://
    or https:// (in lower case) followed by a character that is neither
    white space, nor a semicolon, nor a quote; the empty value and the bare
    wildcard are not safe. *)
Theorem frame_ancestors_safe_iff (fa_value : string) :
  (Clickjacking._is_frame_ancestors_safe fa_value = true <->
   occurs_ignoring_case "'none'" fa_value
   \/ occurs_ignoring_case "'self'" fa_value
   \/ exists before scheme c after,
        fa_value = before ++ scheme ++ String c after
        /\ (scheme = "http://" \/ scheme = "https://")
        /\ Clickjacking.origin_char c = true)
  /\ Clickjacking._is_frame_ancestors_safe EmptyString = false
  /\ Clickjacking._is_frame_ancestors_safe "*" = false.
Proof.
  split; [| split; reflexivity].
  pose proof (@StringFacts.contains_lower_iff "'none'" fa_value eq_refl) as Hnone.
  pose proof (@StringFacts.contains_lower_iff "'self'" fa_value eq_refl) as Hself.
  assert (Horigin : Clickjacking.has_origin fa_value = true <->
                    exists before scheme c after,
                      fa_value = before ++ scheme ++ String c after
                      /\ (scheme = "http://" \/ scheme = "https://")
                      /\ Clickjacking.origin_char c = true).
  { rewrite has_origin_spec. split.
    - intros [a [rest [-> H]]]. apply origin_at_spec in H.
      destruct H as [scheme [c [after [-> [Hs Hc]]]]].
      now exists a, scheme, c, after.
    - intros [before [scheme [c [after [-> [Hs Hc]]]]]].
      exists before, (scheme ++ String c after). split; [reflexivity|].
      apply origin_at_spec. now exists scheme, c, after. }
  destruct fa_value as [|x fa].
  - split; [discriminate|].
    intros [[b [m [a [H Hm]]]] | [[b [m [a [H Hm]]]] | [b [s [c [a [H _]]]]]]].
    + destruct b; [| discriminate]. destruct m; [discriminate | discriminate].
    + destruct b; [| discriminate]. destruct m; [discriminate | discriminate].
    + destruct b; [| discriminate]. simpl in H.
      destruct s; discriminate.
  - unfold Clickjacking._is_frame_ancestors_safe.
    destruct (PyString.contains "'none'" (PyString.lower (String x fa))) eqn:E1.
    + split; [intros _; left; now apply Hnone | reflexivity].
    + destruct (PyString.contains "'self'" (PyString.lower (String x fa))) eqn:E2.
      * split; [intros _; right; left; now apply Hself | reflexivity].
      * cbn [orb].
        destruct (Clickjacking.has_origin (String x fa)) eqn:E3.
        -- split; [intros _; right; right; now apply Horigin | reflexivity].
        -- split; [discriminate|].
           intros [H | [H | H]].
           ++ apply Hnone in H. discriminate.
           ++ apply Hself in H. discriminate.
           ++ apply Horigin in H. discriminate.
Qed.

Section CspFacts.
Import PyText Clickjacking.

Lemma split_on_no_sep (sep : ascii) (cur d : string) :
  lacks sep d = true -> split_on sep cur d = [cur ++ d].
Proof.
  revert cur; induction d as [|c d IH]; intros cur H; cbn [split_on].
  - now rewrite StringFacts.app_nil_r.
  - cbn [lacks] in H. apply andb_true_iff in H. destruct H as [Hc Hd].
    apply negb_true_iff in Hc. rewrite Hc, IH by exact Hd.
    now rewrite StringFacts.app_assoc.
Qed.

Lemma split_on_sep (sep : ascii) (cur d rest : string) :
  lacks sep d = true ->
  split_on sep cur (d ++ String sep rest) = (cur ++ d) :: split_on sep EmptyString rest.
Proof.
  revert cur; induction d as [|c d IH]; intros cur H; cbn [split_on append].
  - now rewrite Ascii.eqb_refl, StringFacts.app_nil_r.
  - cbn [lacks] in H. apply andb_true_iff in H. destruct H as [Hc Hd].
    apply negb_true_iff in Hc. rewrite Hc, IH by exact Hd.
    now rewrite StringFacts.app_assoc.
Qed.

Lemma directives_sep (d rest : string) :
  lacks ";" d = true ->
  directives (d ++ String ";" rest) = (directives d ++ directives rest)%list.
Proof.
  intros H. unfold directives.
  rewrite (@split_on_sep ";" EmptyString d rest H), (@split_on_no_sep ";" EmptyString d H).
  cbn [map filter append]. now destruct (negb (String.eqb (strip d) EmptyString)).
Qed.

Lemma directive_loop_app (a b : list string) :
  directive_loop (a ++ b) =
  match directive_loop a with
  | Some v => Some v
  | None => directive_loop b
  end.
Proof.
  induction a as [|d a IH]; cbn [app directive_loop]; [reflexivity|].
  destruct (split_first_word d) as [|word tail]; [exact IH|].
  destruct (String.eqb (PyString.lower word) "frame-ancestors"); [reflexivity | exact IH].
Qed.

Lemma parse_is_loop (csp : string) :
  _parse_frame_ancestors csp = directive_loop (directives csp).
Proof. now destruct csp. Qed.

Lemma lstrip_length (s : string) : (String.length (lstrip s) <= String.length s)%nat.
Proof.
  induction s as [|c s IH]; cbn [lstrip]; [lia|].
  destruct (is_space c); simpl; lia.
Qed.

Lemma lstrip_fixed_head (c : ascii) (s : string) :
  lstrip (String c s) = String c s -> is_space c = false.
Proof.
  cbn [lstrip]. destruct (is_space c); [| reflexivity].
  intros H. pose proof (lstrip_length s) as Hl. rewrite H in Hl. simpl in Hl. lia.
Qed.

Lemma rstrip_app (a b : string) :
  rstrip b <> EmptyString -> rstrip (a ++ b) = a ++ rstrip b.
Proof.
  intros Hb. induction a as [|c a IH]; [reflexivity|].
  cbn [append rstrip]. rewrite IH.
  destruct (a ++ rstrip b) eqn:E; [| reflexivity].
  destruct a; [simpl in E; contradiction | discriminate].
Qed.

Lemma take_word_app (w rest : string) :
  no_space w = true -> take_word (w ++ String " " rest) = w.
Proof.
  induction w as [|c w IH]; intros H; cbn [append take_word]; [reflexivity|].
  cbn [no_space] in H. apply andb_true_iff in H. destruct H as [Hc Hw].
  apply negb_true_iff in Hc. now rewrite Hc, IH.
Qed.

Lemma drop_word_app (w rest : string) :
  no_space w = true -> drop_word (w ++ String " " rest) = String " " rest.
Proof.
  induction w as [|c w IH]; intros H; cbn [append drop_word]; [reflexivity|].
  cbn [no_space] in H. apply andb_true_iff in H. destruct H as [Hc Hw].
  apply negb_true_iff in Hc. now rewrite Hc, IH.
Qed.

Lemma lower_char_keeps_class (c : ascii) :
  is_space (PyString.lower_char c) = is_space c
  /\ Ascii.eqb (PyString.lower_char c) ";" = Ascii.eqb c ";".
Proof. destruct c as [[] [] [] [] [] [] [] []]; split; reflexivity. Qed.

Lemma lower_keeps_classes (w : string) :
  no_space (PyString.lower w) = no_space w
  /\ lacks ";" (PyString.lower w) = lacks ";" w.
Proof.
  induction w as [|c w [IH1 IH2]]; [split; reflexivity|].
  cbn [PyString.lower no_space lacks].
  destruct (lower_char_keeps_class c) as [-> ->]. now rewrite IH1, IH2.
Qed.

Lemma lacks_app (c : ascii) (a b : string) :
  lacks c (a ++ b) = lacks c a && lacks c b.
Proof.
  induction a as [|x a IH]; [reflexivity|].
  cbn [append lacks]. now rewrite IH, andb_assoc.
Qed.

Lemma no_space_fixed (w : string) :
  no_space w = true ->
  lstrip w = w /\ rstrip w = w /\ take_word w = w /\ drop_word w = EmptyString.
Proof.
  induction w as [|c w IH]; intros H; [repeat split; reflexivity|].
  cbn [no_space] in H. apply andb_true_iff in H. destruct H as [Hc Hw].
  apply negb_true_iff in Hc. destruct (IH Hw) as [_ [Hr [Ht Hd]]].
  cbn [lstrip rstrip take_word drop_word]. rewrite Hc, Hr, Ht, Hd.
  repeat split. now destruct w.
Qed.

Lemma split_first_word_pair (c : ascii) (w value : string) :
  no_space (String c w) = true ->
  lstrip value = value -> value <> EmptyString ->
  split_first_word (String c w ++ String " " value) = [String c w; value].
Proof.
  intros Hns Hl Hne. unfold split_first_word.
  assert (Hc : is_space c = false).
  { cbn [no_space] in Hns. apply andb_true_iff in Hns. now apply negb_true_iff. }
  assert (Hlstrip : lstrip (String c w ++ String " " value)
                    = String c w ++ String " " value)
    by (cbn [append lstrip]; now rewrite Hc).
  rewrite Hlstrip. cbn [append]. cbv iota.
  change (String c (w ++ String " " value)) with (String c w ++ String " " value).
  rewrite drop_word_app, take_word_app by exact Hns.
  change (lstrip (String " " value)) with (lstrip value). rewrite Hl.
  now destruct value.
Qed.

Lemma split_first_word_single (c : ascii) (w : string) :
  no_space (String c w) = true ->
  split_first_word (String c w) = [String c w].
Proof.
  intros Hns. destruct (no_space_fixed _ Hns) as [Hl [_ [Ht Hd]]].
  unfold split_first_word. rewrite Hl. cbv iota. rewrite Hd, Ht. reflexivity.
Qed.

Lemma strip_word_value (c : ascii) (w value : string) :
  no_space (String c w) = true ->
  rstrip value = value -> value <> EmptyString ->
  strip (String c w ++ String " " value) = String c w ++ String " " value.
Proof.
  intros Hns Hr Hne. unfold strip.
  assert (Hc : is_space c = false).
  { cbn [no_space] in Hns. apply andb_true_iff in Hns. now apply negb_true_iff. }
  assert (Hlstrip : lstrip (String c w ++ String " " value)
                    = String c w ++ String " " value)
    by (cbn [append lstrip]; now rewrite Hc).
  rewrite Hlstrip.
  assert (E : String c w ++ String " " value = (String c w ++ " ") ++ value)
    by now rewrite StringFacts.app_assoc.
  rewrite E, rstrip_app; [now rewrite Hr | rewrite Hr; exact Hne].
Qed.

End CspFacts.

(** X22.  In a Content-Security-Policy the first frame-ancestors
    directive wins: for a first directive [d] (text without semicolon)
    followed by a semicolon and the rest, the parser answers what it answers
    for [d] alone when that is a frame-ancestors directive, and what it
    answers for the rest otherwise. *)
Theorem parse_frame_ancestors_first_directive_wins (d rest : string) :
  PyText.lacks ";" d = true ->
  Clickjacking._parse_frame_ancestors (d ++ String ";" rest) =
  match Clickjacking._parse_frame_ancestors d with
  | Some v => Some v
  | None => Clickjacking._parse_frame_ancestors rest
  end.
Proof.
  intros H. rewrite !parse_is_loop, directives_sep by exact H.
  apply directive_loop_app.
Qed.

Lemma parse_frame_ancestors_first_directive_wins_witness :
  Clickjacking._parse_frame_ancestors
    ("default-src 'self'" ++ String ";" " frame-ancestors 'none'; frame-ancestors *")
  = Some "'none'".
Proof.
  rewrite parse_frame_ancestors_first_directive_wins by reflexivity.
  reflexivity.
Defined.

(** X23.  A frame-ancestors directive is read back: the directive name in
    any case, a space, and a value without semicolon and without white space
    at either end parse to that value; the name alone parses to the empty
    value. *)
Theorem parse_frame_ancestors_reads_directive (word value : string) :
  PyString.lower word = "frame-ancestors" ->
  value <> EmptyString ->
  PyText.lstrip value = value ->
  PyText.rstrip value = value ->
  PyText.lacks ";" value = true ->
  Clickjacking._parse_frame_ancestors (word ++ String " " value) = Some value
  /\ Clickjacking._parse_frame_ancestors word = Some EmptyString.
Proof.
  intros Hw Hne Hl Hr Hsemi.
  destruct (lower_keeps_classes word) as [Hns Hls]. rewrite Hw in Hns, Hls.
  change (PyText.no_space "frame-ancestors") with true in Hns.
  change (PyText.lacks ";" "frame-ancestors") with true in Hls.
  symmetry in Hns, Hls.
  destruct word as [|c word]; [discriminate|].
  split.
  - assert (Hlacks : PyText.lacks ";" (String c word ++ String " " value) = true).
    { rewrite lacks_app, Hls.
      change (PyText.lacks ";" (String " " value)) with (PyText.lacks ";" value).
      now rewrite Hsemi. }
    rewrite parse_is_loop. unfold Clickjacking.directives.
    rewrite (@split_on_no_sep ";" EmptyString _ Hlacks).
    cbn [map filter]. change (EmptyString ++ ?x) with x.
    rewrite (strip_word_value c word Hns Hr Hne).
    change (String.eqb (String c word ++ String " " value) EmptyString) with false.
    cbn [negb Clickjacking.directive_loop].
    rewrite (split_first_word_pair c word Hns Hl Hne), Hw.
    change (String.eqb "frame-ancestors" "frame-ancestors") with true. cbv iota.
    unfold PyText.strip. now rewrite Hl, Hr.
  - destruct (no_space_fixed _ Hns) as [Hlw [Hrw _]].
    rewrite parse_is_loop. unfold Clickjacking.directives.
    rewrite (@split_on_no_sep ";" EmptyString _ Hls).
    cbn [map filter]. change (EmptyString ++ ?x) with x.
    unfold PyText.strip at 1 2. rewrite Hlw, Hrw.
    change (String.eqb (String c word) EmptyString) with false.
    cbn [negb Clickjacking.directive_loop].
    rewrite (split_first_word_single c word Hns), Hw. reflexivity.
Qed.

Lemma parse_frame_ancestors_reads_directive_witness :
  Clickjacking._parse_frame_ancestors "Frame-Ancestors 'self' https://a.example"
  = Some "'self' https://a.example".
Proof.
  refine (proj1 (@parse_frame_ancestors_reads_directive
                   "Frame-Ancestors" "'self' https://a.example"
                   eq_refl _ eq_refl eq_refl eq_refl)).
  discriminate.
Defined.

Section ClickjackingTable.
Import Clickjacking.

Lemma assess_severity (xfo csp : option string) :
  fst (assess xfo csp) =
  if (match given xfo with Some x => xfo_protects x | None => false end)
     || _is_frame_ancestors_safe
          match given (frame_ancestors_of csp) with
          | Some v => v
          | None => EmptyString
          end
  then "LOW"
  else match given xfo, given (frame_ancestors_of csp) with
       | None, None => "HIGH"
       | _, _ => "MEDIUM"
       end.
Proof.
  unfold assess.
  destruct (given xfo) as [x|]; [destruct (xfo_protects x)|]; cbn [fst orb];
    destruct (_is_frame_ancestors_safe _); reflexivity.
Qed.

Lemma xfo_protected_iff (xfo : option string) :
  (exists x, given xfo = Some x /\ xfo_protects x = true) <->
  match given xfo with Some x => xfo_protects x | None => false end = true.
Proof.
  destruct (given xfo) as [x|].
  - split; [intros [x' [H Hp]]; now inversion H; subst | intros H; now exists x].
  - split; [intros [x' [H _]]; discriminate | discriminate].
Qed.

Lemma fa_safe_iff (fa : option string) :
  (exists v, fa = Some v /\ _is_frame_ancestors_safe v = true) <->
  _is_frame_ancestors_safe
    match given fa with Some v => v | None => EmptyString end = true.
Proof.
  destruct fa as [[|c v]|]; cbn [given].
  - split; [intros [v' [H Hs]]; inversion H; now subst | discriminate].
  - split; [intros [v' [H Hs]]; inversion H; now subst | intros H; now eexists].
  - split; [intros [v' [H _]]; discriminate | discriminate].
Qed.

End ClickjackingTable.

(** X24.  The severity [check_clickjacking] assigns from the two headers:
    LOW exactly when X-Frame-Options is DENY or SAMEORIGIN (in any case, with
    surrounding white space) or the frame-ancestors value is safe; HIGH
    exactly when X-Frame-Options is missing or empty and there is no
    non-empty frame-ancestors value; MEDIUM otherwise.  In particular a CSP
    whose frame-ancestors is the bare wildcard, without X-Frame-Options, is
    rated MEDIUM. *)
Theorem clickjacking_severity_table (xfo csp : option string) :
  let severity := fst (Clickjacking.assess xfo csp) in
  let fa := Clickjacking.frame_ancestors_of csp in
  let protected :=
    (exists x, Clickjacking.given xfo = Some x /\ Clickjacking.xfo_protects x = true)
    \/ (exists v, fa = Some v /\ Clickjacking._is_frame_ancestors_safe v = true) in
  (severity = "LOW" <-> protected)
  /\ (severity = "HIGH" <->
      Clickjacking.given xfo = None /\ Clickjacking.given fa = None)
  /\ (severity = "MEDIUM" <->
      ~ protected /\ ~ (Clickjacking.given xfo = None /\ Clickjacking.given fa = None))
  /\ fst (Clickjacking.assess None (Some "frame-ancestors *")) = "MEDIUM".
Proof.
  cbv zeta. rewrite assess_severity, xfo_protected_iff, fa_safe_iff.
  set (fa := Clickjacking.frame_ancestors_of csp).
  assert (Hnone : Clickjacking.given xfo = None /\ Clickjacking.given fa = None ->
                  (match Clickjacking.given xfo with
                   | Some x => Clickjacking.xfo_protects x
                   | None => false
                   end)
                  || Clickjacking._is_frame_ancestors_safe
                       match Clickjacking.given fa with
                       | Some v => v
                       | None => EmptyString
                       end = false).
  { intros [-> ->]. reflexivity. }
  destruct ((match Clickjacking.given xfo with
             | Some x => Clickjacking.xfo_protects x
             | None => false
             end)) eqn:Hbx;
    destruct (Clickjacking._is_frame_ancestors_safe
                match Clickjacking.given fa with
                | Some v => v
                | None => EmptyString
                end) eqn:Hbs;
    cbn [orb] in *.
  1-3: (split; [| split; [| split; [| reflexivity]]];
        [ split; [intros _; tauto | reflexivity]
        | split; [discriminate | intros H; apply Hnone in H; discriminate]
        | split; [discriminate | intros [Hn _]; elim Hn; tauto] ]).
  destruct (Clickjacking.given xfo) as [x|], (Clickjacking.given fa) as [v|];
    (split; [| split; [| split; [| reflexivity]]]);
    try (split; [discriminate | intros [H | H]; discriminate]);
    try (split; [discriminate | intros [H1 H2]; discriminate]);
    try (split; [intros _; split;
                 [intros [H | H]; discriminate | intros [H1 H2]; discriminate]
                | reflexivity]).
  - split; [intros _; now split | reflexivity].
  - split; [discriminate | intros [_ H]; elim H; now split].
Qed.

(** X25.  A request that names no probe dispatches every registered id:
    the report then has one finding for each of the twelve ids of [TOOLS],
    in registry order, and none of them is the not-found answer of an
    unregistered id. *)
Theorem empty_request_scans_every_registered_probe
        (env : environment) (url : string) (rep : report) :
  scan_reports env url [] rep ->
  finding_ids (results rep) = map (fun v => Some (PyStr v)) (map fst TOOLS)
  /\ List.length (results rep) = 12%nat
  /\ forall v, In v (map fst TOOLS) ->
       exists module_path,
         TOOLS_get v = Some module_path /\ module_path <> EmptyString.
Proof.
  intros [raw [Hraw ->]]. cbn [selected_vulns] in Hraw.
  destruct (raw_results_pairs Hraw) as [pairs [-> Hkeys]].
  assert (Hnd : NoDup (map fst pairs)).
  { rewrite Hkeys. simpl.
    repeat (constructor; [simpl; intuition discriminate|]). constructor. }
  cbn [results build_report]. rewrite finding_ids_normalize.
  rewrite DictFacts.of_pairs_distinct by exact Hnd.
  unfold Py.keys, normalize_results. rewrite length_map, Hkeys.
  repeat split.
  - rewrite <- (length_map fst pairs), Hkeys. reflexivity.
  - intros v Hv. simpl in Hv.
    repeat (destruct Hv as [<- | Hv];
            [eexists; split; [reflexivity | discriminate]|]).
    contradiction.
Qed.

Lemma empty_request_scans_every_registered_probe_witness :
  exists rep,
    scan_reports Examples.env Examples.url [] rep
    /\ List.length (results rep) = 12%nat.
Proof.
  destruct (report_total Examples.env Examples.url (selected_vulns [])) as [rep Hrep].
  exists rep. split; [exact Hrep|].
  exact (proj1 (proj2 (@empty_request_scans_every_registered_probe
                         Examples.env Examples.url rep Hrep))).
Defined.
